(** * jrpc2go: a JSON-RPC 2.0 dispatcher, embedded in Rocq

    The development follows the Go package file by file:
    - [errors.go]: the error catalogue ([Error], [newError], [NewError]);
    - [jrpc2go.go]: [Request], [Response], [ParseParams], [WithContext],
      [newResponse] and the request decoder [parseMethodRequest];
    - the manager file: [ManagerBuilder], [Manager], [Handle], [execMethod].

    Go strings and byte slices are [string] (a list of 8-bit characters),
    integers and durations are [Z], maps are [gmap], pointers that may be
    nil are [option], and a panic is the [Panic] outcome of the [outcome]
    monad.  What the package takes from its environment (the standard JSON
    decoder, the handlers, the scheduler) is described in the sections that
    introduce it. *)

From Stdlib Require Import ZArith String Ascii List Bool Lia.
From stdpp Require Import base tactics option list strings gmap.

Set Warnings "-register-all".

Local Open Scope string_scope.
Local Open Scope list_scope.
Local Open Scope Z_scope.

(** ** Panics *)

(** A Go call either returns or panics.  [outcome] is the error monad the
    embedding threads through every function that can dereference a nil
    pointer or calls [panic]. *)
Inductive outcome (A : Type) : Type :=
| Ret (a : A)
| Panic (msg : string).
Arguments Ret {A} a.
Arguments Panic {A} msg.

#[global] Instance outcome_ret : MRet outcome := fun A a => Ret a.
#[global] Instance outcome_bind : MBind outcome := fun A B f m =>
  match m with
  | Ret a => f a
  | Panic msg => Panic msg
  end.

(** Dereferencing a pointer: nil panics. *)
Definition deref {A} (p : option A) : outcome A :=
  match p with
  | Some a => Ret a
  | None => Panic "invalid memory address or nil pointer dereference"
  end.

Definition returns {A} (o : outcome A) : Prop := exists a, o = Ret a.

(** ** JSON documents and Go values *)

(** The documents the encoder produces.  [JRaw] is a [json.RawMessage]:
    JSON text that is carried through as it was received. *)
Inductive json : Type :=
| JNull
| JBool (b : bool)
| JNum (n : Z)
| JFloat (lit : string)
| JStr (s : string)
| JRaw (raw : string)
| JArr (l : list json)
| JObj (fields : list (string * json)).

(** A Go [error] value: its [Error()] text and what the encoder makes of it. *)
Record goerror : Type := GoError { err_text : string; err_json : json }.

(** A value of type [interface{}]: nil, a Go error, or any other value, which
    the package only ever hands to the JSON encoder and is therefore
    represented by its JSON image. *)
Inductive any : Type :=
| Nil
| Val (j : json)
| Err (e : goerror).

Definition is_nil (v : any) : bool :=
  match v with Nil => true | _ => false end.

(** ** errors.go *)

Definition ErrorCode : Type := Z.

Record Error : Type := mkError {
  Code : ErrorCode;
  Message : string;
  Data : any
}.

Definition errCodeParseError : ErrorCode := -32700.
Definition errCodeInvalidRequest : ErrorCode := -32600.
Definition errCodeMethodNotFound : ErrorCode := -32601.
Definition errCodeInvalidParams : ErrorCode := -32602.
Definition ErrCodeInternal : ErrorCode := -32603.
Definition errCodeInvalidRPCVersion : ErrorCode := -32001.
Definition errCodeExecutionTimeout : ErrorCode := -32002.

(** The [switch] of [newError]: the canonical text of a catalogue code; any
    other code leaves the message empty. *)
Definition newError_message (code : ErrorCode) : string :=
  if code =? errCodeParseError then "Parse error"
  else if code =? errCodeInvalidRequest then "Invalid Request"
  else if code =? errCodeMethodNotFound then "Method not found"
  else if code =? errCodeInvalidParams then "Invalid method parameter(s)"
  else if code =? ErrCodeInternal then "Internal error"
  else if code =? errCodeInvalidRPCVersion then "JSON RPC Version must be 2.0"
  else if code =? errCodeExecutionTimeout then "Method execution timeout"
  else "".

Definition newError (code : ErrorCode) (data : any) : Error :=
  {| Code := code; Message := newError_message code; Data := data |}.

Definition NewError (code : ErrorCode) (message : string) : Error :=
  {| Code := code; Message := message; Data := Nil |}.

(** ** jrpc2go.go: the message model *)

Definition version : string := "2.0".
Definition jsonArrayCharCode : Z := 91.

Definition Time : Type := Z.
Definition Duration : Type := Z.
Definition Second : Duration := 1000000000.

(** [context.Context], reduced to what the dispatcher observes of it: the
    instant at which [Done()] is closed, if ever. *)
Record Ctx : Type := mkCtx { done_at : option Time }.

Definition Background : Ctx := {| done_at := None |}.

(** [context.WithTimeout(parent, d)] called at instant [now]: the child is
    done at [now + d] or when the parent is, whichever comes first. *)
Definition WithTimeout (parent : Ctx) (now : Time) (d : Duration) : Ctx :=
  {| done_at := Some (match done_at parent with
                      | None => now + d
                      | Some p => Z.min p (now + d)
                      end) |}.

Definition RawMessage : Type := string.

Record Request : Type := mkRequest {
  r_Version : string;
  r_Method : string;
  r_ID : option RawMessage;
  r_Params : option RawMessage;
  r_ctx : option Ctx
}.

Record Response : Type := mkResponse {
  res_Version : string;
  res_ID : option RawMessage;
  res_Result : any;
  res_Error : option Error
}.

Definition set_Result (v : any) (res : Response) : Response :=
  {| res_Version := res_Version res; res_ID := res_ID res;
     res_Result := v; res_Error := res_Error res |}.

Definition set_Error (e : option Error) (res : Response) : Response :=
  {| res_Version := res_Version res; res_ID := res_ID res;
     res_Result := res_Result res; res_Error := e |}.

(** [Request.Context]. *)
Definition Request_Context (r : Request) : Ctx :=
  match r_ctx r with
  | Some c => c
  | None => Background
  end.

(** [Request.WithContext]: a shallow copy with the context replaced. *)
Definition WithContext (r : Request) (ctx : option Ctx) : outcome Request :=
  match ctx with
  | None => Panic "nil context"
  | Some c =>
      Ret {| r_Version := r_Version r; r_Method := r_Method r;
             r_ID := r_ID r; r_Params := r_Params r; r_ctx := Some c |}
  end.

(** [newResponse] reads through its pointer argument. *)
Definition newResponse (r : option Request) : outcome Response :=
  r ← deref r;
  mret {| res_Version := r_Version r; res_ID := r_ID r;
          res_Result := Nil; res_Error := None |}.

(** ** The byte source: [io.Reader] and [bufio.Reader] *)

(** An [io.Reader] delivers the bytes of [stream] and from then on returns
    [stream_err] ([io.EOF] at a regular end of input). *)
Record Reader : Type := mkReader { stream : string; stream_err : goerror }.

Definition EOF : goerror := GoError "EOF" (JObj []).
Definition ErrInvalidUnreadRune : goerror :=
  GoError "bufio: invalid use of UnreadRune" (JObj []).

Definition byte (c : ascii) : Z := Z.of_N (N_of_ascii c).

Definition RuneError : Z := 65533.

Definition between (lo hi b : Z) : bool := (lo <=? b) && (b <=? hi).

(** [utf8.DecodeRune]: the first code point of [s] and its width in bytes;
    an ill-formed or truncated sequence is [RuneError] of width 1. *)
Definition DecodeRune (s : string) : Z * string :=
  match s with
  | "" => (RuneError, "")
  | String c0 s1 =>
      let b0 := byte c0 in
      let bad := (RuneError, String c0 "") in
      if b0 <? 128 then (b0, String c0 "")
      else if between 194 223 b0 then
        match s1 with
        | String c1 _ =>
            if between 128 191 (byte c1)
            then ((b0 - 192) * 64 + (byte c1 - 128), String c0 (String c1 ""))
            else bad
        | _ => bad
        end
      else if between 224 239 b0 then
        match s1 with
        | String c1 (String c2 _) =>
            if between (if b0 =? 224 then 160 else 128)
                       (if b0 =? 237 then 159 else 191) (byte c1)
               && between 128 191 (byte c2)
            then ((b0 - 224) * 4096 + (byte c1 - 128) * 64 + (byte c2 - 128),
                  String c0 (String c1 (String c2 "")))
            else bad
        | _ => bad
        end
      else if between 240 244 b0 then
        match s1 with
        | String c1 (String c2 (String c3 _)) =>
            if between (if b0 =? 240 then 144 else 128)
                       (if b0 =? 244 then 143 else 191) (byte c1)
               && between 128 191 (byte c2) && between 128 191 (byte c3)
            then ((b0 - 240) * 262144 + (byte c1 - 128) * 4096
                  + (byte c2 - 128) * 64 + (byte c3 - 128),
                  String c0 (String c1 (String c2 (String c3 ""))))
            else bad
        | _ => bad
        end
      else bad
  end.

(** Drop a prefix that is known to be there. *)
Fixpoint skip (n : nat) (s : string) : string :=
  match n, s with
  | S n', String _ s' => skip n' s'
  | _, _ => s
  end.

(** A [bufio.Reader]: the input not yet consumed, the bytes of the rune the
    last operation returned when that operation was [ReadRune], and the size
    of the buffer. *)
Record bufio_Reader : Type := mkBufio {
  br_unread : Reader;
  br_lastRune : option string;
  br_size : Z
}.

Definition defaultBufSize : Z := 4096.

Definition NewReader (rd : Reader) : bufio_Reader :=
  {| br_unread := rd; br_lastRune := None; br_size := defaultBufSize |}.

Definition Size (b : bufio_Reader) : Z := br_size b.

Definition ReadRune (b : bufio_Reader) : bufio_Reader * (goerror + Z * Z) :=
  let rd := br_unread b in
  match stream rd with
  | "" =>
      ({| br_unread := rd; br_lastRune := None; br_size := br_size b |},
       inl (stream_err rd))
  | s =>
      let '(r, bytes) := DecodeRune s in
      ({| br_unread := mkReader (skip (String.length bytes) s) (stream_err rd);
          br_lastRune := Some bytes; br_size := br_size b |},
       inr (r, Z.of_nat (String.length bytes)))
  end.

Definition UnreadRune (b : bufio_Reader) : bufio_Reader * option goerror :=
  match br_lastRune b with
  | None => (b, Some ErrInvalidUnreadRune)
  | Some bytes =>
      ({| br_unread := mkReader (bytes +:+ stream (br_unread b))
                                (stream_err (br_unread b));
          br_lastRune := None; br_size := br_size b |}, None)
  end.

(** ** The standard JSON decoder *)

(** [encoding/json] is not part of the package.  The two calls the package
    makes are taken as an interface: [json.NewDecoder(br).Decode(&req)]
    with [req *Request], and the same with [rs []*Request].  Either yields
    the decoder's error or the decoded value; the pointers it produces can
    be nil (the JSON literal [null]).  An instance for concrete inputs is
    [Go_json] further down. *)
Class JSONDecoder : Type := {
  Decode_Request : Reader -> goerror + option Request;
  Decode_Requests : Reader -> goerror + list (option Request)
}.

(** [json.Unmarshal(data, &v)] passes the address of an [interface{}]
    variable [v].  The decoder follows a non-nil pointer held by [v] and
    fills what it points to; [Unmarshal] is that case, for a pointee of type
    [T]: the pointee after the call, and the error if any. *)
Class Unmarshaler (T : Type) : Type :=
  Unmarshal : RawMessage -> T -> T * option goerror.

(** When [v] holds anything else the decoder has nothing to follow: it
    stores the decoded value in the variable [v] itself, which every JSON
    text allows.  What is left of the call is the syntax check that
    [json.Unmarshal] runs first. *)
Class JSONSyntax : Type :=
  checkValid : RawMessage -> option goerror.

Definition str (s : string) : any := Val (JStr s).

(** ** jrpc2go.go: [Request.ParseParams] *)

(** What the [interface{}] argument [v] holds when [ParseParams] is
    called. *)
Inductive target (T : Type) : Type :=
| NilInterface         (* nothing: [v == nil] *)
| PointerTo (t : T)    (* a non-nil pointer to a [T] that is no part of the request *)
| Receiver             (* the pointer [r], the request of the call itself *)
| NilPointer           (* a nil pointer of type [*T] *)
| ByValue (x : T).     (* a [T], not a pointer *)

Arguments NilInterface {T}.
Arguments PointerTo {T} t.
Arguments Receiver {T}.
Arguments NilPointer {T}.
Arguments ByValue {T} x.

(** The result gives the request and the caller's [v] (with its pointee) as
    they are in memory when the call returns, and the returned error.  The
    receiver is only dereferenced after the test of [v].  The parameter of
    the method is a copy of the caller's [v]; [&v] is the address of that
    copy, so what the decoder stores in the variable itself is lost when the
    method returns, and only what it writes through a pointer held by [v]
    stays. *)
Definition ParseParams {T} {um : Unmarshaler T} {ur : Unmarshaler Request} {cv : JSONSyntax}
    (r : option Request) (v : target T)
  : outcome (option Request * target T * option Error) :=
  match v with
  | NilInterface =>
      mret (r, v, Some (newError errCodeInvalidParams
                          (str "v can't be nil to parse request parameters")))
  | _ =>
      req ← deref r;
      match r_Params req with
      | None =>
          mret (r, v, Some (newError errCodeInvalidParams
                              (str "request doesn't have params")))
      | Some params =>
          let '(r', v', err) :=
            match v with
            | PointerTo t =>
                let '(t', err) := Unmarshal params t in (r, PointerTo t', err)
            | Receiver =>
                let '(req', err) := Unmarshal params req in (Some req', v, err)
            | _ => (r, v, checkValid params)
            end in
          match err with
          | Some err => mret (r', v', Some (newError errCodeInvalidParams (Err err)))
          | None => mret (r', v', None)
          end
      end
  end.

(** ** jrpc2go.go: [parseMethodRequest] *)

Definition parseMethodRequest {dec : JSONDecoder} (r : Reader)
  : Error + list (option Request) :=
  let br := NewReader r in
  if Size br =? 0 then
    inl (newError errCodeParseError (str "fail to read the request text: empty"))
  else
    match ReadRune br with
    | (_, inl err) =>
        inl (newError errCodeParseError
               (str ("fail to read the request text: " +:+ err_text err)))
    | (br, inr (f, _)) =>
        match UnreadRune br with
        | (_, Some err) =>
            inl (newError errCodeParseError
                   (str ("fail to read the request text: " +:+ err_text err)))
        | (br, None) =>
            if negb (f =? byte "[") then
              match Decode_Request (br_unread br) with
              | inl err => inl (newError errCodeInvalidRequest (Err err))
              | inr req => inr [req]
              end
            else
              match Decode_Requests (br_unread br) with
              | inl err => inl (newError errCodeInvalidRequest (Err err))
              | inr rs => inr rs
              end
        end
    end.

(** ** Handlers *)

(** A handler is the package's [Method] interface.  [Execute(req, resp)]
    is given by what the dispatcher can observe of it: the writes to the two
    reply fields of [resp], the time that passes in between, and whether it
    ever returns.  The script may depend on the request, context included. *)
Inductive instr : Type :=
| Sleep (d : Duration)
| SetResult (v : any)
| SetError (e : option Error)
| Hang.

Definition Method : Type := Request -> list instr.

Inductive write : Type :=
| WResult (v : any)
| WError (e : option Error).

Definition apply_write (res : Response) (w : write) : Response :=
  match w with
  | WResult v => set_Result v res
  | WError e => set_Error e res
  end.

Definition apply_writes (res : Response) (ws : list (Time * write)) : Response :=
  foldl apply_write res (ws.*2).

(** The run of a script started at instant [t]: its writes with the instant
    each one happens, and the instant [Execute] returns, if it does. *)
Fixpoint timeline (t : Time) (s : list instr) : list (Time * write) * option Time :=
  match s with
  | [] => ([], Some t)
  | Sleep d :: s' => timeline (t + Z.max 0 d) s'
  | SetResult v :: s' =>
      let '(ws, fin) := timeline t s' in ((t, WResult v) :: ws, fin)
  | SetError e :: s' =>
      let '(ws, fin) := timeline t s' in ((t, WError e) :: ws, fin)
  | Hang :: _ => ([], None)
  end.

(** Instants are points of one clock, shared by the dispatcher and the
    handler goroutines; the dispatcher's own steps take no time.  When
    something the handler goroutine does and something the dispatcher does
    fall on the same instant, the Go scheduler decides which comes first;
    the embedding takes that decision as given. *)
Class Scheduler : Type := { handler_first : bool }.

(** A handler step at [th] is seen by a dispatcher step at [td]. *)
Definition before {sched : Scheduler} (td : Time) (th : Time) : bool :=
  (th <? td) || (handler_first && (th =? td)).

Definition finished_by {sched : Scheduler} (td : Time) (fin : option Time) : bool :=
  match fin with
  | Some f => before td f
  | None => false
  end.

(** ** The manager file: builder and registry *)

Record ManagerBuilder : Type := mkBuilder {
  mb_timeout : Duration;
  mb_methods : gmap string Method
}.

Definition NewManagerBuilder : ManagerBuilder :=
  {| mb_timeout := 10 * Second; mb_methods := ∅ |}.

Definition SetTimeout (timeout : Duration) (mb : ManagerBuilder) : ManagerBuilder :=
  {| mb_timeout := timeout; mb_methods := mb_methods mb |}.

Definition Add (name : string) (h : option Method) (mb : ManagerBuilder)
  : outcome ManagerBuilder :=
  match String.eqb name "", h with
  | false, Some method =>
      Ret {| mb_timeout := mb_timeout mb;
             mb_methods := <[name := method]> (mb_methods mb) |}
  | _, _ => Panic "jsonrpc: method name and function should not be empty"
  end.

(** The read-write lock of the Go struct guards a map that nothing writes
    after [Build]; it has no counterpart here. *)
Record Manager : Type := mkManager {
  methods : gmap string Method;
  timeout : Duration
}.

Definition Build (mb : ManagerBuilder) : Manager :=
  {| methods := mb_methods mb; timeout := mb_timeout mb |}.

(** ** The manager file: [execMethod] *)

(** What a run of [execMethod] leaves behind, besides the response: *)
Inductive event : Type :=
| Lookup (name : string)    (* the registry was read for this name *)
| Spawn (name : string)     (* the handler registered under this name was started *)
| Finished (name : string)  (* the select took the handler's completion *)
| Expired (name : string).  (* the select took the deadline *)

(** [c_res] is the response object as [execMethod] returns it, [c_pending]
    the writes the handler goroutine will still make to that same object,
    [c_end] the instant of the return and [c_log] what was done. *)
Record call : Type := mkCall {
  c_res : Response;
  c_pending : list (Time * write);
  c_end : Time;
  c_log : list event
}.

Definition deadline (parent : Ctx) (now : Time) (d : Duration) : Time :=
  match done_at (WithTimeout parent now d) with
  | Some t => t
  | None => now + d
  end.

Definition execMethod {sched : Scheduler} (m : Manager) (ctx : Ctx)
    (req : option Request) (t0 : Time) : outcome call :=
  res ← newResponse req;
  rq ← deref req;
  if negb (String.eqb (r_Version rq) version) then
    mret {| c_res := set_Error (Some (newError errCodeInvalidRPCVersion
                                        (str (res_Version res)))) res;
            c_pending := []; c_end := t0; c_log := [] |}
  else if String.eqb (r_Method rq) "" then
    mret {| c_res := set_Error (Some (newError errCodeMethodNotFound
                                        (str "Method not specified or empty"))) res;
            c_pending := []; c_end := t0; c_log := [] |}
  else
    match methods m !! r_Method rq with
    | None =>
        mret {| c_res := set_Error (Some (newError errCodeMethodNotFound
                                            (str (r_Method rq)))) res;
                c_pending := []; c_end := t0;
                c_log := [Lookup (r_Method rq)] |}
    | Some method =>
        let ctxT := WithTimeout ctx t0 (timeout m) in
        rq' ← WithContext rq (Some ctxT);
        (* go func() { method.Execute(req, res); close(finish) }() *)
        let '(ws, fin) := timeline t0 (method rq') in
        let log := [Lookup (r_Method rq); Spawn (r_Method rq)] in
        (* the select is entered at t0; Done() is ready from then on once
           the deadline has passed *)
        let fires := Z.max t0 (deadline ctx t0 (timeout m)) in
        if finished_by fires fin then
          (* case <-finish *)
          let res := apply_writes res ws in
          let res := match res_Error res with
                     | Some _ => set_Result Nil res
                     | None => res
                     end in
          mret {| c_res := res; c_pending := [];
                  c_end := default fires fin;
                  c_log := log ++ [Finished (r_Method rq)] |}
        else
          (* case <-ctxT.Done() *)
          let seen := List.filter (fun w => before fires w.1) ws in
          let late := List.filter (fun w => negb (before fires w.1)) ws in
          let res := apply_writes res seen in
          let res := set_Error (Some (newError errCodeExecutionTimeout Nil)) res in
          mret {| c_res := res; c_pending := late; c_end := fires;
                  c_log := log ++ [Expired (r_Method rq)] |}
    end.

(** ** The encoder and the sink *)

(** [json.Marshal] on the three shapes the package encodes, following the
    struct tags: [omitempty] drops a nil [Result], a nil [Error] pointer and
    a nil [Data]. *)
Definition encodeAny (v : any) : option json :=
  match v with
  | Nil => None
  | Val j => Some j
  | Err e => Some (err_json e)
  end.

Definition field (name : string) (v : option json) : list (string * json) :=
  match v with
  | Some j => [(name, j)]
  | None => []
  end.

Definition encodeError (e : Error) : json :=
  JObj ([("code", JNum (Code e)); ("message", JStr (Message e))]
        ++ field "data" (encodeAny (Data e))).

Definition encodeResponse (res : Response) : json :=
  JObj ([("jsonrpc", JStr (res_Version res));
         ("id", match res_ID res with
                | Some raw => JRaw raw
                | None => JNull
                end)]
        ++ field "result" (encodeAny (res_Result res))
        ++ field "error" (encodeError <$> res_Error res)).

(** An [io.Writer]: it takes everything, or fails every write with the
    same error. *)
Record Writer : Type := mkWriter { w_fail : option goerror }.

(** [json.NewEncoder(w).Encode(doc)]: the documents that reach the sink and
    the error returned.  The values of [any] are those [json.Marshal]
    accepts, so the only failure here is the writer's.  A handler can also
    store a value the encoder refuses (a channel, a function) in [Result] or
    in the [Data] of its error; such values are outside [any], and what is
    stated below about the returned error without a condition on the
    writer alone is stated for responses [execMethod] builds by itself. *)
Definition Encode (w : Writer) (doc : json) : list json * option goerror :=
  match w_fail w with
  | None => ([doc], None)
  | Some e => ([], Some e)
  end.

(** ** The manager file: [Handle] *)

(** The response object behind a pointer kept in [resp], as it is at
    instant [t]. *)
Definition settle {sched : Scheduler} (t : Time) (c : call) : Response :=
  apply_writes (c_res c) (List.filter (fun w => before t w.1) (c_pending c)).

(** The [for] loop: [resp] is the slice built so far and [t] the clock. *)
Fixpoint dispatch {sched : Scheduler} (m : Manager) (ctx : Ctx)
    (rq : list (option Request)) (t : Time) (resp : list call) (log : list event)
  : outcome (list call * Time * list event) :=
  match rq with
  | [] => mret (resp, t, log)
  | r :: rq' =>
      tResp ← execMethod m ctx r t;
      req ← deref r;
      let resp' :=
        if bool_decide (is_Some (r_ID req)) || bool_decide (is_Some (res_Error (c_res tResp)))
        then resp ++ [tResp] else resp in
      dispatch m ctx rq' (c_end tResp) resp' (log ++ c_log tResp)
  end.

(** The [error] interface value [Handle] returns: one of the package's own
    errors or the encoder's. *)
Inductive herror : Type :=
| RPCError (e : Error)
| IOError (e : goerror).

Record handled : Type := mkHandled {
  h_out : list json;         (* what reached the sink, in order *)
  h_err : option herror;     (* the returned error, nil when [None] *)
  h_log : list event
}.

Definition failed (e : Error) : handled :=
  {| h_out := []; h_err := Some (RPCError e); h_log := [] |}.

Definition Handle {dec : JSONDecoder} {sched : Scheduler} (m : Manager) (ctx : option Ctx)
    (r : option Reader) (w : option Writer) (t0 : Time) : outcome handled :=
  match r, w with
  | None, _ => mret (failed (newError ErrCodeInternal (str "r io.Reader can't be nil")))
  | Some _, None => mret (failed (newError ErrCodeInternal (str "w io.Writer can't be nil")))
  | Some r, Some w =>
      match parseMethodRequest r with
      | inl err => mret (failed err)
      | inr rq =>
          let ctx := default Background ctx in
          if (length rq =? 0)%nat then
            mret (failed (newError errCodeInvalidRequest (str "no methods specified")))
          else
            '(resp, t, log) ← dispatch m ctx rq t0 [] [];
            let docs := (fun c => encodeResponse (settle t c)) <$> resp in
            if (1 <? length resp)%nat then
              let '(out, err) := Encode w (JArr docs) in
              mret {| h_out := out; h_err := IOError <$> err; h_log := log |}
            else if (length resp =? 1)%nat then
              match docs with
              | doc :: _ =>
                  let '(out, err) := Encode w doc in
                  mret {| h_out := out; h_err := IOError <$> err; h_log := log |}
              | [] => Panic "index out of range"
              end
            else mret {| h_out := []; h_err := None; h_log := log |}
      end
  end.

(** ** A decoder to run the package on concrete input

    [Go_json] implements the [JSONDecoder] interface with a recursive-descent
    reader for JSON texts, so that [Handle] can be evaluated on the byte
    strings of the package's own test table.  It follows [encoding/json]:
    leading white space is skipped, a value is read up to its end and what
    follows is left alone, object keys are matched against the struct tags
    without regard to (ASCII) case, a later duplicate key overrides an
    earlier one, [null] leaves a string field alone and clears a pointer
    field.  The decoder's errors are told apart by kind; their texts are
    representative.  The theorems about the package do not depend on this
    instance: they hold for every [JSONDecoder]. *)
Module Go_json.

Inductive jval : Type :=
| VNull
| VBool (b : bool)
| VNum (n : Z)
| VFloat (lit : string)
| VStr (s : string)
| VArr (elems : list (string * jval))             (* raw text, value *)
| VObj (members : list (string * (string * jval))). (* key, raw text, value *)

Inductive perr : Type := UnexpectedEnd | Syntax.

Definition presult (A : Type) : Type := perr + A * string.

Definition quote : ascii := "034"%char.
Definition backslash : ascii := "092"%char.

Definition is_ws (c : ascii) : bool :=
  (byte c =? 32) || (byte c =? 9) || (byte c =? 10) || (byte c =? 13).

Fixpoint skip_ws (s : string) : string :=
  match s with
  | String c s' => if is_ws c then skip_ws s' else s
  | "" => ""
  end.

(** The literal [lit] is expected at the head of [s]. *)
Fixpoint expect (lit s : string) : presult unit :=
  match lit, s with
  | "", _ => inr (tt, s)
  | String _ _, "" => inl UnexpectedEnd
  | String a lit', String b s' =>
      if Ascii.eqb a b then expect lit' s' else inl Syntax
  end.

Definition is_digit (c : ascii) : bool := between 48 57 (byte c).

Fixpoint digits (s : string) : string * string :=
  match s with
  | String c s' =>
      if is_digit c then let '(d, r) := digits s' in (String c d, r) else ("", s)
  | "" => ("", "")
  end.

Definition decimal (d : string) : Z :=
  fold_left (fun acc c => acc * 10 + (byte c - 48)) (list_ascii_of_string d) 0.

(** A number: an optional minus sign; a zero, or a non-zero digit and more
    digits; an optional fraction; an optional exponent. *)
Definition parse_number (s : string) : presult jval :=
  let '(neg, s1) := match s with
                    | String "-" r => (true, r)
                    | _ => (false, s)
                    end in
  let '(int, s2) := match s1 with
                    | String "0" r => ("0", r)
                    | _ => digits s1
                    end in
  match int with
  | "" => match s1 with "" => inl UnexpectedEnd | _ => inl Syntax end
  | _ =>
      let frac := match s2 with
                  | String "." r =>
                      let '(d, r') := digits r in
                      match d, r with
                      | "", "" => inl UnexpectedEnd
                      | "", _ => inl Syntax
                      | _, _ => inr ("." +:+ d, r')
                      end
                  | _ => inr ("", s2)
                  end in
      match frac with
      | inl e => inl e
      | inr (fr, s3) =>
          let exp := match s3 with
                     | String e r =>
                         if Ascii.eqb e "e" || Ascii.eqb e "E" then
                           let '(sign, r1) :=
                             match r with
                             | String "+" r1 => ("+", r1)
                             | String "-" r1 => ("-", r1)
                             | _ => ("", r)
                             end in
                           let '(d, r2) := digits r1 in
                           match d, r1 with
                           | "", "" => inl UnexpectedEnd
                           | "", _ => inl Syntax
                           | _, _ => inr (String e (sign +:+ d), r2)
                           end
                         else inr ("", s3)
                     | "" => inr ("", s3)
                     end in
          match exp with
          | inl e => inl e
          | inr (ex, s4) =>
              match fr, ex with
              | "", "" => inr (VNum (if neg then - decimal int else decimal int), s4)
              | _, _ => inr (VFloat ((if neg then "-" else "") +:+ int +:+ fr +:+ ex), s4)
              end
          end
      end
  end.

(** The content of a string: bytes and [\u] escapes, joined afterwards. *)
Inductive unit16 : Type := B (c : ascii) | U (cp : Z).

Definition hexval (c : ascii) : option Z :=
  let b := byte c in
  if between 48 57 b then Some (b - 48)
  else if between 97 102 b then Some (b - 87)
  else if between 65 70 b then Some (b - 55)
  else None.

Definition hex4 (a b c d : ascii) : option Z :=
  a ← hexval a; b ← hexval b; c ← hexval c; d ← hexval d;
  Some (((a * 16 + b) * 16 + c) * 16 + d).

Definition simple_escape (c : ascii) : option ascii :=
  if Ascii.eqb c quote then Some quote
  else if Ascii.eqb c backslash then Some backslash
  else if Ascii.eqb c "/" then Some "/"%char
  else if Ascii.eqb c "b" then Some "008"%char
  else if Ascii.eqb c "f" then Some "012"%char
  else if Ascii.eqb c "n" then Some "010"%char
  else if Ascii.eqb c "r" then Some "013"%char
  else if Ascii.eqb c "t" then Some "009"%char
  else None.

(** After the opening quote, up to and including the closing one. *)
Fixpoint parse_chars (s : string) : presult (list unit16) :=
  match s with
  | "" => inl UnexpectedEnd
  | String c s' =>
      if Ascii.eqb c quote then inr ([], s')
      else if byte c <? 32 then inl Syntax
      else if Ascii.eqb c backslash then
        match s' with
        | "" => inl UnexpectedEnd
        | String "u" (String h1 (String h2 (String h3 (String h4 s'')))) =>
            match hex4 h1 h2 h3 h4 with
            | Some cp =>
                match parse_chars s'' with
                | inr (us, r) => inr (U cp :: us, r)
                | inl e => inl e
                end
            | None => inl Syntax
            end
        | String "u" r =>
            if forallb (fun h => bool_decide (is_Some (hexval h))) (list_ascii_of_string r)
            then inl UnexpectedEnd else inl Syntax
        | String e s'' =>
            match simple_escape e with
            | Some b =>
                match parse_chars s'' with
                | inr (us, r) => inr (B b :: us, r)
                | inl e => inl e
                end
            | None => inl Syntax
            end
        end
      else
        match parse_chars s' with
        | inr (us, r) => inr (B c :: us, r)
        | inl e => inl e
        end
  end.

Definition chr (b : Z) : ascii := ascii_of_N (Z.to_N b).

Definition utf8 (cp : Z) : string :=
  if cp <? 128 then String (chr cp) ""
  else if cp <? 2048 then
    String (chr (192 + cp / 64)) (String (chr (128 + cp mod 64)) "")
  else if cp <? 65536 then
    String (chr (224 + cp / 4096))
      (String (chr (128 + (cp / 64) mod 64)) (String (chr (128 + cp mod 64)) ""))
  else
    String (chr (240 + cp / 262144))
      (String (chr (128 + (cp / 4096) mod 64))
         (String (chr (128 + (cp / 64) mod 64)) (String (chr (128 + cp mod 64)) ""))).

(** Surrogate halves are paired; a lone half becomes U+FFFD. *)
Fixpoint join (us : list unit16) : string :=
  match us with
  | [] => ""
  | B c :: us' => String c (join us')
  | U hi :: us' =>
      if between 55296 56319 hi then
        match us' with
        | U lo :: us'' =>
            if between 56320 57343 lo
            then utf8 (65536 + (hi - 55296) * 1024 + (lo - 56320)) +:+ join us''
            else utf8 RuneError +:+ join us'
        | _ => utf8 RuneError +:+ join us'
        end
      else if between 56320 57343 hi then utf8 RuneError +:+ join us'
      else utf8 hi +:+ join us'
  end.

Definition parse_string (s : string) : presult string :=
  match parse_chars s with
  | inr (us, r) => inr (join us, r)
  | inl e => inl e
  end.

(** The text a value was read from: what lies between the start of the
    value and the rest of the input. *)
Definition consumed (s rest : string) : string :=
  String.substring 0 (String.length s - String.length rest) s.

(** [parse_value] reads a value, [parse_elems] the rest of an array after
    its opening bracket or a comma, [parse_members] the same for an object.
    [first] tells that nothing has been read since the opening bracket. *)
Fixpoint parse_value (fuel : nat) (s : string) : presult jval :=
  match fuel with
  | O => inl Syntax
  | S fuel =>
      match skip_ws s with
      | "" => inl UnexpectedEnd
      | String c r as s =>
          if Ascii.eqb c "{" then
            match parse_members fuel true r with
            | inr (ms, r') => inr (VObj ms, r')
            | inl e => inl e
            end
          else if Ascii.eqb c "[" then
            match parse_elems fuel true r with
            | inr (es, r') => inr (VArr es, r')
            | inl e => inl e
            end
          else if Ascii.eqb c quote then
            match parse_string r with
            | inr (str, r') => inr (VStr str, r')
            | inl e => inl e
            end
          else if Ascii.eqb c "t" then
            match expect "true" s with
            | inr (_, r') => inr (VBool true, r')
            | inl e => inl e
            end
          else if Ascii.eqb c "f" then
            match expect "false" s with
            | inr (_, r') => inr (VBool false, r')
            | inl e => inl e
            end
          else if Ascii.eqb c "n" then
            match expect "null" s with
            | inr (_, r') => inr (VNull, r')
            | inl e => inl e
            end
          else if Ascii.eqb c "-" || is_digit c then parse_number s
          else inl Syntax
      end
  end
with parse_elems (fuel : nat) (first : bool) (s : string)
  : presult (list (string * jval)) :=
  match fuel with
  | O => inl Syntax
  | S fuel =>
      match skip_ws s with
      | "" => inl UnexpectedEnd
      | String c r as s =>
          if first && Ascii.eqb c "]" then inr ([], r)
          else
            match parse_value fuel s with
            | inl e => inl e
            | inr (v, r1) =>
                let raw := consumed s r1 in
                match skip_ws r1 with
                | "" => inl UnexpectedEnd
                | String d r2 =>
                    if Ascii.eqb d "]" then inr ([(raw, v)], r2)
                    else if Ascii.eqb d "," then
                      match parse_elems fuel false r2 with
                      | inr (es, r3) => inr ((raw, v) :: es, r3)
                      | inl e => inl e
                      end
                    else inl Syntax
                end
            end
      end
  end
with parse_members (fuel : nat) (first : bool) (s : string)
  : presult (list (string * (string * jval))) :=
  match fuel with
  | O => inl Syntax
  | S fuel =>
      match skip_ws s with
      | "" => inl UnexpectedEnd
      | String c r =>
          if first && Ascii.eqb c "}" then inr ([], r)
          else if negb (Ascii.eqb c quote) then inl Syntax
          else
            match parse_string r with
            | inl e => inl e
            | inr (key, r1) =>
                match skip_ws r1 with
                | "" => inl UnexpectedEnd
                | String d r2 =>
                    if negb (Ascii.eqb d ":") then inl Syntax
                    else
                      let s3 := skip_ws r2 in
                      match parse_value fuel s3 with
                      | inl e => inl e
                      | inr (v, r4) =>
                          let raw := consumed s3 r4 in
                          match skip_ws r4 with
                          | "" => inl UnexpectedEnd
                          | String e r5 =>
                              if Ascii.eqb e "}" then inr ([(key, (raw, v))], r5)
                              else if Ascii.eqb e "," then
                                match parse_members fuel false r5 with
                                | inr (ms, r6) => inr ((key, (raw, v)) :: ms, r6)
                                | inl e => inl e
                                end
                              else inl Syntax
                          end
                      end
                end
            end
      end
  end.

Definition ErrUnexpectedEOF : goerror := GoError "unexpected EOF" (JObj []).
Definition SyntaxError : goerror :=
  GoError "invalid character in JSON text" (JObj []).
Definition UnmarshalTypeError (value target : string) : goerror :=
  GoError ("json: cannot unmarshal " +:+ value +:+ " into Go value of type " +:+ target)
          (JObj [("Value", JStr value)]).

Definition kind (v : jval) : string :=
  match v with
  | VNull => "null"
  | VBool _ => "bool"
  | VNum _ | VFloat _ => "number"
  | VStr _ => "string"
  | VArr _ => "array"
  | VObj _ => "object"
  end.

Definition at_EOF (rd : Reader) : bool := String.eqb (err_text (stream_err rd)) "EOF".

Definition fuel_for (s : string) : nat := S (2 * String.length s).

(** [Decoder.Decode] reading the next value off the stream.  An object or
    an array ends at its closing bracket; any other value ends at the
    white space or the end of input that follows it. *)
Definition read_value (rd : Reader) : goerror + jval :=
  match skip_ws (stream rd) with
  | "" => inl (stream_err rd)
  | s =>
      match parse_value (fuel_for s) s with
      | inl UnexpectedEnd => inl (if at_EOF rd then ErrUnexpectedEOF else stream_err rd)
      | inl Syntax => inl SyntaxError
      | inr (v, rest) =>
          match v, rest with
          | (VObj _ | VArr _), _ => inr v
          | _, "" => if at_EOF rd then inr v else inl (stream_err rd)
          | _, String c _ => if is_ws c then inr v else inl SyntaxError
          end
      end
  end.

(** [json.Unmarshal] reading a whole text. *)
Definition read_text (data : string) : goerror + jval :=
  match skip_ws data with
  | "" => inl ErrUnexpectedEOF
  | s =>
      match parse_value (fuel_for s) s with
      | inl UnexpectedEnd => inl ErrUnexpectedEOF
      | inl Syntax => inl SyntaxError
      | inr (v, rest) =>
          match skip_ws rest with
          | "" => inr v
          | _ => inl SyntaxError
          end
      end
  end.

Definition lower (c : ascii) : ascii :=
  if between 65 90 (byte c) then chr (byte c + 32) else c.

Fixpoint lowercase (s : string) : string :=
  match s with
  | "" => ""
  | String c s' => String (lower c) (lowercase s')
  end.

Definition is_key (tag key : string) : bool := String.eqb (lowercase key) tag.

Definition zero : Request :=
  {| r_Version := ""; r_Method := ""; r_ID := None; r_Params := None; r_ctx := None |}.

Definition string_field (target : string) (v : jval) (old : string) : goerror + string :=
  match v with
  | VStr s => inr s
  | VNull => inr old
  | _ => inl (UnmarshalTypeError (kind v) target)
  end.

Definition raw_field (raw : string) (v : jval) : option RawMessage :=
  match v with
  | VNull => None
  | _ => Some raw
  end.

Definition set_member (req : Request) (m : string * (string * jval)) : goerror + Request :=
  let '(key, (raw, v)) := m in
  if is_key "jsonrpc" key then
    match string_field "Request.jsonrpc" v (r_Version req) with
    | inr s => inr {| r_Version := s; r_Method := r_Method req; r_ID := r_ID req;
                      r_Params := r_Params req; r_ctx := r_ctx req |}
    | inl e => inl e
    end
  else if is_key "method" key then
    match string_field "Request.method" v (r_Method req) with
    | inr s => inr {| r_Version := r_Version req; r_Method := s; r_ID := r_ID req;
                      r_Params := r_Params req; r_ctx := r_ctx req |}
    | inl e => inl e
    end
  else if is_key "id" key then
    inr {| r_Version := r_Version req; r_Method := r_Method req; r_ID := raw_field raw v;
           r_Params := r_Params req; r_ctx := r_ctx req |}
  else if is_key "params" key then
    inr {| r_Version := r_Version req; r_Method := r_Method req; r_ID := r_ID req;
           r_Params := raw_field raw v; r_ctx := r_ctx req |}
  else inr req.

Fixpoint set_members (req : Request) (ms : list (string * (string * jval)))
  : goerror + Request :=
  match ms with
  | [] => inr req
  | m :: ms' =>
      match set_member req m with
      | inr req' => set_members req' ms'
      | inl e => inl e
      end
  end.

(** Decoding into a [*Request]. *)
Definition to_Request (v : jval) : goerror + option Request :=
  match v with
  | VNull => inr None
  | VObj ms =>
      match set_members zero ms with
      | inr req => inr (Some req)
      | inl e => inl e
      end
  | _ => inl (UnmarshalTypeError (kind v) "jrpc2go.Request")
  end.

Fixpoint to_Requests (es : list (string * jval)) : goerror + list (option Request) :=
  match es with
  | [] => inr []
  | (_, v) :: es' =>
      match to_Request v, to_Requests es' with
      | inr r, inr rs => inr (r :: rs)
      | inl e, _ => inl e
      | _, inl e => inl e
      end
  end.

#[export] Instance decoder : JSONDecoder := {|
  Decode_Request rd :=
    match read_value rd with
    | inr v => to_Request v
    | inl e => inl e
    end;
  Decode_Requests rd :=
    match read_value rd with
    | inr VNull => inr []
    | inr (VArr es) => to_Requests es
    | inr v => inl (UnmarshalTypeError (kind v) "[]*jrpc2go.Request")
    | inl e => inl e
    end
|}.

(** Decoding into an existing [Request]: a member of the wrong type is
    reported and skipped, decoding goes on and the first such error is
    returned. *)
Fixpoint fill_members (req : Request) (ms : list (string * (string * jval)))
  : Request * option goerror :=
  match ms with
  | [] => (req, None)
  | m :: ms' =>
      match set_member req m with
      | inr req' => fill_members req' ms'
      | inl e => ((fill_members req ms').1, Some e)
      end
  end.

#[export] Instance unmarshal_request : Unmarshaler Request := fun data req =>
  match read_text data with
  | inl e => (req, Some e)
  | inr VNull => (req, None)
  | inr (VObj ms) => fill_members req ms
  | inr v => (req, Some (UnmarshalTypeError (kind v) "jrpc2go.Request"))
  end.

#[export] Instance syntax : JSONSyntax := fun data =>
  match read_text data with
  | inl e => Some e
  | inr _ => None
  end.

(** Test inputs are written with an apostrophe where the JSON text has a
    double quote. *)
Fixpoint q (s : string) : string :=
  match s with
  | "" => ""
  | String c s' => String (if Ascii.eqb c "'" then quote else c) (q s')
  end.

(** A [bytes.Reader] over a text. *)
Definition bytes_Reader (s : string) : Reader := mkReader s EOF.

End Go_json.

(** ** The package's test table *)
Module Tests.
Import Go_json.

Record addMethodParams : Type := mkParams { V1 : Z; V2 : Z }.

Definition int64 (n : Z) : Z := (n + 2 ^ 63) mod 2 ^ 64 - 2 ^ 63.

Definition int64_field (target : string) (v : jval) (old : Z) : goerror + Z :=
  match v with
  | VNum n =>
      if between (- 2 ^ 63) (2 ^ 63 - 1) n then inr n
      else inl (UnmarshalTypeError "number" target)
  | VNull => inr old
  | VFloat _ => inl (UnmarshalTypeError "number" target)
  | _ => inl (UnmarshalTypeError (kind v) target)
  end.

(** A field of the wrong type is reported and skipped; decoding goes on
    and the first such error is returned. *)
Fixpoint set_params (p : addMethodParams) (ms : list (string * (string * jval)))
  : addMethodParams * option goerror :=
  match ms with
  | [] => (p, None)
  | (key, (_, v)) :: ms' =>
      let '(p', err) :=
        if is_key "v1" key then
          match int64_field "addMethodParams.v1" v (V1 p) with
          | inr n => ({| V1 := n; V2 := V2 p |}, None)
          | inl e => (p, Some e)
          end
        else if is_key "v2" key then
          match int64_field "addMethodParams.v2" v (V2 p) with
          | inr n => ({| V1 := V1 p; V2 := n |}, None)
          | inl e => (p, Some e)
          end
        else (p, None) in
      let '(p'', err') := set_params p' ms' in
      (p'', match err with Some e => Some e | None => err' end)
  end.

#[export] Instance unmarshal_params : Unmarshaler addMethodParams := fun data p =>
  match read_text data with
  | inl e => (p, Some e)
  | inr VNull => (p, None)
  | inr (VObj ms) => set_params p ms
  | inr v => (p, Some (UnmarshalTypeError (kind v) "addMethodParams"))
  end.

Definition addMethod : Method := fun req =>
  match ParseParams (Some req) (PointerTo {| V1 := 0; V2 := 0 |}) with
  | Ret (_, _, Some err) => [SetError (Some err)]
  | Ret (_, PointerTo p, None) =>
      let r := int64 (V1 p + V2 p) in
      (if r =? 20 then [Sleep (10 * Second)] else [])
      ++ (if r =? 1
          then [SetError (Some {| Code := 1; Message := "Fake error for test"; Data := Nil |})]
          else [])
      ++ [SetResult (Val (JNum r))]
  | _ => []
  end.

Definition builder : outcome ManagerBuilder :=
  mb ← Add "add" (Some addMethod) (SetTimeout (1 * Second) NewManagerBuilder);
  Add "sum" (Some addMethod) mb.

Definition m : outcome Manager := mb ← builder; mret (Build mb).

Definition buffer : Writer := mkWriter None.

Definition run {sched : Scheduler} (ctx : option Ctx) (input : option string) (w : option Writer)
  : outcome handled :=
  m ← m; Handle m ctx (bytes_Reader <$> input) w 0.
(** One document in the buffer and no error. *)
Definition wrote (doc : json) (log : list event) : outcome handled :=
  Ret {| h_out := [doc]; h_err := None; h_log := log |}.
End Tests.

(** ** What the theorems speak about *)

(** The loop of [Handle] without its filter: every request of the batch
    with the call [execMethod] makes of it, in request order, each call
    starting at the instant the one before returned. *)
Fixpoint run_calls {sched : Scheduler} (m : Manager) (ctx : Ctx)
    (rq : list (option Request)) (t : Time) : outcome (list (Request * call)) :=
  match rq with
  | [] => mret []
  | r :: rq' =>
      c ← execMethod m ctx r t;
      req ← deref r;
      rest ← run_calls m ctx rq' (c_end c);
      mret ((req, c) :: rest)
  end.

(** The test of the loop: [rq[i].ID != nil || tResp.Error != nil]. *)
Definition retained (p : Request * call) : bool :=
  bool_decide (is_Some (r_ID p.1)) || bool_decide (is_Some (res_Error (c_res p.2))).

(** The instant the last call of a batch started at [t] returns. *)
Definition end_of (t : Time) (all : list (Request * call)) : Time :=
  foldl (fun _ p => c_end p.2) t all.

Definition logs (all : list (Request * call)) : list event :=
  concat ((fun p => c_log p.2) <$> all).

(** The requests [execMethod] answers on its own, with no handler started:
    the version is not ["2.0"], or the method is empty or not registered.
    The error of such an answer carries a text or nothing as data. *)
Definition unhandled (m : Manager) (req : Request) : Prop :=
  r_Version req <> version \/ r_Method req = "" \/ methods m !! r_Method req = None.

(** The tail of [Handle]: nothing, one object, or one array. *)
Definition emit (w : Writer) (docs : list json) : list json * option goerror :=
  match docs with
  | [] => ([], None)
  | [doc] => Encode w doc
  | _ => Encode w (JArr docs)
  end.

(** The response objects found in what reached the sink: the elements of an
    array, or the document itself. *)
Definition responses_of (out : list json) : list json :=
  concat ((fun doc => match doc with JArr docs => docs | _ => [doc] end) <$> out).

(** The member of a JSON object, if [doc] is an object that has it. *)
Definition member (name : string) (doc : json) : option json :=
  match doc with
  | JObj fields => snd <$> List.find (fun f => String.eqb f.1 name) fields
  | _ => None
  end.

(** ** Handlers used as concrete inputs *)
Module Handlers.

(** [func (noop) Execute(req, resp) {}] *)
Definition noop : Method := fun _ => [].

(** [resp.Result = 1; time.Sleep(10 * time.Second)] *)
Definition eager : Method := fun _ => [SetResult (Val (JNum 1)); Sleep (10 * Second)].

(** [time.Sleep(1500 * time.Millisecond); resp.Result = 7] *)
Definition late : Method := fun _ => [Sleep (1500 * 1000000); SetResult (Val (JNum 7))].

(** [resp.Error = NewError(7, "failed")] *)
Definition failing : Method := fun _ => [SetError (Some (NewError 7 "failed"))].

Definition registry : Manager :=
  {| methods := <["noop" := noop]> (<["eager" := eager]> (<["late" := late]>
                  (<["failing" := failing]> (<["add" := Tests.addMethod]> ∅))));
     timeout := 1 * Second |}.

Definition handler_wins : Scheduler := {| handler_first := true |}.
Definition dispatcher_wins : Scheduler := {| handler_first := false |}.

Definition run {sched : Scheduler} (input : string) : outcome handled :=
  Handle (dec := Go_json.decoder) registry (Some Background)
         (Some (Go_json.bytes_Reader (Go_json.q input))) (Some (mkWriter None)) 0.

(** A batch of a silent notification, a failing notification and a call
    with an identifier, as decoded. *)
Definition batch_input : string :=
  "[{'jsonrpc':'2.0','method':'noop'},{'jsonrpc':'2.0','method':'failing'},{'jsonrpc':'2.0','method':'add','id':3,'params':{'v1':1,'v2':2}}]".

Definition batch : list (option Request) := Eval vm_compute in
    match parseMethodRequest (dec := Go_json.decoder)
            (Go_json.bytes_Reader (Go_json.q batch_input)) with
    | inr rq => rq
    | inl _ => []
    end.

Definition call_input : string :=
  "{'jsonrpc':'2.0','method':'add','id':'1','params':{'v1':10,'v2':120}}".

Definition call_request : Request :=
  {| r_Version := "2.0"; r_Method := "add"; r_ID := Some (Go_json.q "'1'");
     r_Params := Some (Go_json.q "{'v1':10,'v2':120}"); r_ctx := None |}.

Definition failing_request : Request :=
  {| r_Version := "2.0"; r_Method := "failing"; r_ID := None;
     r_Params := None; r_ctx := None |}.

Definition failing_call : call :=
  {| c_res := {| res_Version := "2.0"; res_ID := None; res_Result := Nil;
                 res_Error := Some (NewError 7 "failed") |};
     c_pending := []; c_end := 0;
     c_log := [Lookup "failing"; Spawn "failing"; Finished "failing"] |}.

End Handlers.


(** ** The HTTP adapter *)

Definition contentTypeKey : string := "Content-Type".
Definition contentTypeValue : string := "application/json".

Definition StatusNoContent : Z := 204.
Definition StatusUnsupportedMediaType : Z := 415.
Definition StatusInternalServerError : Z := 500.

(** [http.Header.Get] and [http.Header.Add], for a key in canonical form. *)
Definition Header_Get (h : gmap string (list string)) (key : string) : string :=
  match h !! key with
  | Some (v :: _) => v
  | _ => ""
  end.

Definition Header_Add (key value : string) (h : gmap string (list string))
  : gmap string (list string) :=
  <[key := default [] (h !! key) ++ [value]]> h.

(** What the adapter reads of an [http.Request].  The body of a request
    received by a server is never nil. *)
Record http_Request : Type := mkHTTPRequest {
  hr_Header : gmap string (list string);
  hr_ContentLength : Z;
  hr_Body : Reader;
  hr_ctx : Ctx
}.

(** What happens to an [http.ResponseWriter], in order: the calls of
    [WriteHeader] and the writes that went through, which are documents of
    the encoder or the text of an error. *)
Inductive wstep : Type :=
| WriteHeader (code : Z)
| WriteDoc (doc : json)
| WriteError (e : herror).

Record ResponseWriter : Type := mkResponseWriter {
  rw_Header : gmap string (list string);
  rw_conn : Writer;
  rw_steps : list wstep
}.

Definition rw_WriteHeader (code : Z) (w : ResponseWriter) : ResponseWriter :=
  {| rw_Header := rw_Header w; rw_conn := rw_conn w;
     rw_steps := rw_steps w ++ [WriteHeader code] |}.

Definition rw_wrote (steps : list wstep) (w : ResponseWriter) : ResponseWriter :=
  {| rw_Header := rw_Header w; rw_conn := rw_conn w;
     rw_steps := rw_steps w ++ steps |}.

(** The writer when the function returns, whether [r.Body.Close] was
    deferred, and what [Handle] did. *)
Record served : Type := mkServed {
  s_writer : ResponseWriter;
  s_closed : bool;
  s_log : list event
}.

(** The function [HTTPHandleFunc(m)] returns. *)
Definition HTTPHandleFunc {dec : JSONDecoder} {sched : Scheduler} (m : Manager)
    (w : ResponseWriter) (r : http_Request) (t0 : Time) : outcome served :=
  if negb (String.prefix contentTypeValue (Header_Get (hr_Header r) contentTypeKey)) then
    mret {| s_writer := rw_WriteHeader StatusUnsupportedMediaType w;
            s_closed := false; s_log := [] |}
  else if hr_ContentLength r =? 0 then
    mret {| s_writer := rw_WriteHeader StatusNoContent w;
            s_closed := false; s_log := [] |}
  else
    let w := {| rw_Header := Header_Add contentTypeKey contentTypeValue (rw_Header w);
                rw_conn := rw_conn w; rw_steps := rw_steps w |} in
    h ← Handle m (Some (hr_ctx r)) (Some (hr_Body r)) (Some (rw_conn w)) t0;
    let w := rw_wrote (WriteDoc <$> h_out h) w in
    match h_err h with
    | Some err =>
        let w := rw_WriteHeader StatusInternalServerError w in
        let w := match w_fail (rw_conn w) with
                 | None => rw_wrote [WriteError err] w
                 | Some _ => w
                 end in
        mret {| s_writer := w; s_closed := true; s_log := h_log h |}
    | None => mret {| s_writer := w; s_closed := true; s_log := h_log h |}
    end.

(** ** More concrete inputs *)
Module Inputs.

Definition noop_call : Request :=
  {| r_Version := "2.0"; r_Method := "noop"; r_ID := Some "1";
     r_Params := None; r_ctx := None |}.

Definition eager_call : Request :=
  {| r_Version := "2.0"; r_Method := "eager"; r_ID := Some "2";
     r_Params := None; r_ctx := None |}.

Definition unknown_call : Request :=
  {| r_Version := "2.0"; r_Method := "no-method"; r_ID := Some "3";
     r_Params := None; r_ctx := None |}.

(** The registry of [Handlers] with a timeout of zero. *)
Definition impatient : Manager :=
  {| methods := methods Handlers.registry; timeout := 0 |}.

(** A manager that has the handler [noop] and nothing else. *)
Definition small : Manager :=
  {| methods := {["noop" := Handlers.noop]}; timeout := 1 * Second |}.

Definition reader (input : string) : Reader :=
  Go_json.bytes_Reader (Go_json.q input).

Definition identified_input : string :=
  "[{'jsonrpc':'2.0','method':'noop','id':1},{'jsonrpc':'1.0','method':'noop','id':'b'},{'jsonrpc':'2.0','method':'failing','id':3}]".

Definition identified : list (option Request) := Eval vm_compute in
  match parseMethodRequest (dec := Go_json.decoder) (reader identified_input) with
  | inr rq => rq
  | inl _ => []
  end.

Definition silent_input : string :=
  "[{'jsonrpc':'2.0','method':'noop'},{'jsonrpc':'2.0','method':'add','params':{'v1':1,'v2':2}}]".

Definition silent : list (option Request) := Eval vm_compute in
  match parseMethodRequest (dec := Go_json.decoder) (reader silent_input) with
  | inr rq => rq
  | inl _ => []
  end.

Definition silent_calls : list (Request * call) := Eval vm_compute in
  match run_calls (sched := Handlers.handler_wins) Handlers.registry Background silent 0 with
  | Ret all => all
  | Panic _ => []
  end.

(** An HTTP request with the given content type, announced length and
    body, and a writer on a connection that takes what is written. *)
Definition post (content_type : string) (len : Z) (body : string) : http_Request :=
  {| hr_Header := {[contentTypeKey := [content_type]]};
     hr_ContentLength := len;
     hr_Body := reader body;
     hr_ctx := Background |}.

(** A batch no request of which reaches a handler: a wrong version, a
    method that is not registered, and no method at all. *)
Definition rejected_input : string :=
  "[{'jsonrpc':'1.0','method':'noop','id':1},{'jsonrpc':'2.0','method':'missing'},{'jsonrpc':'2.0','id':'c'}]".

Definition rejected : list (option Request) := Eval vm_compute in
  match parseMethodRequest (dec := Go_json.decoder) (reader rejected_input) with
  | inr rq => rq
  | inl _ => []
  end.


Definition fresh_writer : ResponseWriter :=
  {| rw_Header := ∅; rw_conn := mkWriter None; rw_steps := [] |}.

End Inputs.


(** * Properties of the package *)

(** ** The builder *)

Lemma eqb_empty (name : string) : String.eqb name "" = true <-> name = "".
Proof. apply String.eqb_eq. Qed.

(** C9.  [Add] panics exactly when the name is empty or the handler is nil;
    any other registration returns a builder that maps the name to the
    handler and leaves the other names and the timeout as they were, and a
    second registration under the same name replaces the first. *)
Theorem Add_panics_iff_invalid (name : string) (h : option Method) (mb : ManagerBuilder) :
  ((exists msg, Add name h mb = Panic msg) <-> name = "" \/ h = None)
  /\ (forall method, name <> "" -> h = Some method ->
        exists mb', Add name h mb = Ret mb'
          /\ mb_methods mb' !! name = Some method
          /\ (forall other, other <> name ->
                mb_methods mb' !! other = mb_methods mb !! other)
          /\ mb_timeout mb' = mb_timeout mb)
  /\ (forall first second mb1, Add name (Some first) mb = Ret mb1 ->
        exists mb2, Add name (Some second) mb1 = Ret mb2
          /\ mb_methods mb2 !! name = Some second).
Proof.
  unfold Add. destruct (String.eqb_spec name "") as [-> | Hname].
  - split; [| split].
    + split; [tauto | intros _; destruct h; eauto].
    + intros method Hne. congruence.
    + intros first second mb1 H. discriminate.
  - split; [| split].
    + destruct h as [method |]; split.
      * intros [msg H]. discriminate.
      * intros [? | ?]; congruence.
      * auto.
      * eauto.
    + intros method _ ->. eexists. split; [reflexivity |]. simpl.
      split; [apply lookup_insert_eq |].
      split; [| reflexivity].
      intros other Hother. apply lookup_insert_ne. congruence.
    + intros first second mb1 H. eexists. split; [reflexivity |]. simpl.
      apply lookup_insert_eq.
Qed.

Lemma Add_panics_iff_invalid_witness :
  (exists mb', Add "add" (Some Tests.addMethod) NewManagerBuilder = Ret mb'
     /\ mb_methods mb' !! "add" = Some Tests.addMethod
     /\ (forall other, other <> "add" ->
           mb_methods mb' !! other = mb_methods NewManagerBuilder !! other)
     /\ mb_timeout mb' = mb_timeout NewManagerBuilder)
  /\ (exists msg, Add "" (Some Tests.addMethod) NewManagerBuilder = Panic msg).
Proof.
  split.
  - apply (Add_panics_iff_invalid "add" (Some Tests.addMethod) NewManagerBuilder);
      [discriminate | reflexivity].
  - apply (Add_panics_iff_invalid "" (Some Tests.addMethod) NewManagerBuilder).
    left. reflexivity.
Defined.

(** ** Per-call dispatch: the checks before the handler *)

Section Dispatch.
Context {sched : Scheduler}.

(** C7.  A request whose version is not ["2.0"] is answered at once with
    InvalidRPCVersion carrying that version string: the registry is not
    read and no handler is started, whatever the manager holds. *)
Theorem execMethod_rejects_version (m : Manager) (ctx : Ctx) (req : Request) (t0 : Time) :
  r_Version req <> version ->
  execMethod m ctx (Some req) t0 =
    Ret {| c_res := {| res_Version := r_Version req;
                       res_ID := r_ID req;
                       res_Result := Nil;
                       res_Error := Some {| Code := -32001;
                                            Message := "JSON RPC Version must be 2.0";
                                            Data := Val (JStr (r_Version req)) |} |};
           c_pending := [];
           c_end := t0;
           c_log := [] |}.
Proof.
  intros Hv. unfold execMethod. simpl.
  destruct (String.eqb_spec (r_Version req) version) as [? | _]; [contradiction |].
  reflexivity.
Qed.

End Dispatch.


(** ** [ParseParams] *)

Section Params.
Context {T : Type} {um : Unmarshaler T} {ur : Unmarshaler Request} {cv : JSONSyntax}.


End Params.

(** ** The request decoder *)

Lemma byte_inj (a b : ascii) : byte a = byte b -> a = b.
Proof.
  unfold byte. intros H. apply N2Z.inj in H.
  rewrite <- (ascii_N_embedding a), <- (ascii_N_embedding b). congruence.
Qed.

Ltac split_between :=
  repeat match goal with
    | H : between _ _ _ = true |- _ =>
        unfold between in H; apply andb_prop in H; destruct H
    | H : (_ && _)%bool = true |- _ => apply andb_prop in H; destruct H
    | H : (_ <=? _) = true |- _ => apply Z.leb_le in H
    | H : (_ <? _) = false |- _ => apply Z.ltb_ge in H
    | H : (_ <? _) = true |- _ => apply Z.ltb_lt in H
    end.

(** The rune [ReadRune] returns is the bracket only for the bracket byte. *)
Lemma DecodeRune_bracket (c : ascii) (s : string) :
  (DecodeRune (String c s)).1 = byte "[" <-> c = "["%char.
Proof.
  assert (Hb : byte "[" = 91) by reflexivity. rewrite Hb.
  split.
  - unfold DecodeRune.
    repeat (match goal with
            | |- context [if ?b then _ else _] => destruct b eqn:?
            | |- context [match ?x with "" => _ | String _ _ => _ end] => destruct x
            end; simpl);
      split_between; unfold RuneError; intros Hr; try lia.
    apply byte_inj. rewrite Hb. exact Hr.
  - intros ->. reflexivity.
Qed.

(** The bytes of the rune are a prefix of the input: putting them back
    restores it. *)
Lemma DecodeRune_prefix (s : string) :
  (DecodeRune s).2 +:+ skip (String.length (DecodeRune s).2) s = s.
Proof.
  unfold DecodeRune. destruct s as [| c0 s]; [reflexivity |].
  repeat (match goal with
          | |- context [if ?b then _ else _] => destruct b eqn:?
          | |- context [match ?x with "" => _ | String _ _ => _ end] => destruct x
          end; simpl); reflexivity.
Qed.

#[local] Arguments DecodeRune : simpl never.

Section Decoder.
Context {dec : JSONDecoder}.

(** C4 as the code has it.  The decoder looks at the first byte of the
    stream, white space included, and hands the whole stream, that byte
    included, to the JSON decoder: as an array of requests when the byte is
    the opening bracket, as one request wrapped in a one-element slice
    otherwise.  An empty or unreadable stream is ParseError; a failure of
    the JSON decoder is InvalidRequest with the decoder's error as data. *)
Theorem parseMethodRequest_first_byte (r : Reader) :
  match stream r with
  | "" =>
      parseMethodRequest r =
        inl {| Code := -32700; Message := "Parse error";
               Data := Val (JStr ("fail to read the request text: "
                                  +:+ err_text (stream_err r))) |}
  | String c _ =>
      if Ascii.eqb c "[" then
        parseMethodRequest r =
          match Decode_Requests r with
          | inr rs => inr rs
          | inl err => inl {| Code := -32600; Message := "Invalid Request";
                              Data := Err err |}
          end
      else
        parseMethodRequest r =
          match Decode_Request r with
          | inr req => inr [req]
          | inl err => inl {| Code := -32600; Message := "Invalid Request";
                              Data := Err err |}
          end
  end.
Proof.
  destruct r as [s e]. unfold parseMethodRequest. simpl.
  destruct s as [| c s]; [reflexivity |].
  unfold ReadRune. simpl.
  pose proof (DecodeRune_bracket c s) as Hbr.
  pose proof (DecodeRune_prefix (String c s)) as Hpre.
  destruct (DecodeRune (String c s)) as [f bytes]. simpl in Hbr, Hpre.
  unfold UnreadRune. simpl. rewrite Hpre.
  destruct (Ascii.eqb_spec c "[") as [-> | Hc].
  - replace (f =? byte "[") with true by (symmetry; apply Z.eqb_eq; tauto).
    simpl. destruct (Decode_Requests _); reflexivity.
  - replace (f =? byte "[") with false by (symmetry; apply Z.eqb_neq; tauto).
    simpl. destruct (Decode_Request _); reflexivity.
Qed.

End Decoder.


(** ** Per-call dispatch: general facts *)

(** Case analysis along the branches of [execMethod]. *)
Ltac exec_cases req :=
  unfold execMethod; simpl;
  destruct (String.eqb_spec (r_Version req) version); simpl;
  [ destruct (String.eqb_spec (r_Method req) ""); simpl;
    [ | match goal with
        | |- context [methods ?m !! r_Method req] =>
            destruct (methods m !! r_Method req) as [method |] eqn:?; simpl
        end;
        [ match goal with
          | |- context [timeline ?t ?s] =>
              destruct (timeline t s) as [ws fin] eqn:?; simpl
          end;
          match goal with
          | |- context [finished_by ?d ?f] => destruct (finished_by d f) eqn:?; simpl
          end
        | ] ]
  | ].


Section Calls.
Context {sched : Scheduler}.

Lemma execMethod_nil (m : Manager) (ctx : Ctx) (t : Time) :
  execMethod m ctx None t = Panic "invalid memory address or nil pointer dereference".
Proof. reflexivity. Qed.

(** On a request that is there, [execMethod] returns. *)
Lemma execMethod_returns (m : Manager) (ctx : Ctx) (req : Request) (t : Time) :
  exists c, execMethod m ctx (Some req) t = Ret c.
Proof. exec_cases req; eauto. Qed.

Lemma apply_writes_Version (res : Response) (ws : list (Time * write)) :
  res_Version (apply_writes res ws) = res_Version res.
Proof.
  unfold apply_writes. revert res.
  induction ws as [| [t w] ws IH]; intros res; simpl; [reflexivity |].
  rewrite IH. destruct w; reflexivity.
Qed.

Lemma apply_writes_ID (res : Response) (ws : list (Time * write)) :
  res_ID (apply_writes res ws) = res_ID res.
Proof.
  unfold apply_writes. revert res.
  induction ws as [| [t w] ws IH]; intros res; simpl; [reflexivity |].
  rewrite IH. destruct w; reflexivity.
Qed.

(** The response object carries the version and the identifier of the
    request, at the return of [execMethod] and at any later instant. *)
Lemma execMethod_echo (m : Manager) (ctx : Ctx) (req : Request) (t : Time) (c : call) :
  execMethod m ctx (Some req) t = Ret c ->
  forall t', res_Version (settle t' c) = r_Version req
             /\ res_ID (settle t' c) = r_ID req.
Proof.
  intros Hc t'. unfold settle.
  rewrite apply_writes_Version, apply_writes_ID.
  revert Hc. exec_cases req; intros [= <-]; simpl;
    repeat match goal with
      | |- context [match ?x with Some _ => _ | None => _ end] => destruct x; simpl
      end;
    rewrite ?apply_writes_Version, ?apply_writes_ID; auto.
Qed.

Lemma filter_before_after (t : Time) (ws : list (Time * write)) :
  List.filter (fun w => before t w.1)
    (List.filter (fun w => negb (before t w.1)) ws) = [].
Proof.
  induction ws as [| w ws IH]; simpl; [reflexivity |].
  destruct (before t w.1) eqn:Hb; simpl; [exact IH |].
  rewrite Hb. exact IH.
Qed.

(** At the instant [execMethod] returns, the response object is as
    returned: what the handler still does comes later. *)
Lemma execMethod_settle_now (m : Manager) (ctx : Ctx) (req : Request) (t : Time) (c : call) :
  execMethod m ctx (Some req) t = Ret c -> settle (c_end c) c = c_res c.
Proof.
  unfold settle. exec_cases req; intros [= <-]; simpl; try reflexivity.
  rewrite filter_before_after. reflexivity.
Qed.

(** The loop keeps, in order, the calls that pass its test. *)
Lemma dispatch_spec (m : Manager) (ctx : Ctx) (rq : list (option Request)) :
  forall (t : Time) (resp : list call) (log : list event),
    dispatch m ctx rq t resp log =
      all ← run_calls m ctx rq t;
      mret (resp ++ (List.filter retained all).*2, end_of t all, log ++ logs all).
Proof.
  induction rq as [| r rq IH]; intros t resp log; simpl.
  - unfold logs. simpl. rewrite !app_nil_r. reflexivity.
  - destruct r as [req |]; [| reflexivity].
    destruct (execMethod_returns m ctx req t) as [c Hc]. rewrite Hc. simpl.
    rewrite IH. destruct (run_calls m ctx rq (c_end c)) as [all |]; simpl; [| reflexivity].
    unfold retained at 2. simpl. unfold logs. simpl.
    destruct (bool_decide (is_Some (r_ID req)) || bool_decide (is_Some (res_Error (c_res c))));
      simpl; rewrite <- ?app_assoc; reflexivity.
Qed.

Lemma run_calls_requests (m : Manager) (ctx : Ctx) (rq : list (option Request)) :
  forall (t : Time) (all : list (Request * call)),
    run_calls m ctx rq t = Ret all -> rq = Some <$> all.*1.
Proof.
  induction rq as [| r rq IH]; intros t all; simpl.
  - intros [= <-]. reflexivity.
  - destruct r as [req |]; [| discriminate].
    destruct (execMethod_returns m ctx req t) as [c Hc]. rewrite Hc. simpl.
    destruct (run_calls m ctx rq (c_end c)) as [rest |] eqn:Hrest; simpl; [| discriminate].
    intros [= <-]. simpl. f_equal. eapply IH. exact Hrest.
Qed.

Lemma run_calls_elem (m : Manager) (ctx : Ctx) (rq : list (option Request)) :
  forall (t : Time) (all : list (Request * call)) (req : Request) (c : call),
    run_calls m ctx rq t = Ret all -> (req, c) ∈ all ->
    exists t', execMethod m ctx (Some req) t' = Ret c.
Proof.
  induction rq as [| r rq IH]; intros t all req c; simpl.
  - intros [= <-] Hin. inversion Hin.
  - destruct r as [req0 |]; [| discriminate].
    destruct (execMethod_returns m ctx req0 t) as [c0 Hc]. rewrite Hc. simpl.
    destruct (run_calls m ctx rq (c_end c0)) as [rest |] eqn:Hrest; simpl; [| discriminate].
    intros [= <-] Hin. apply elem_of_cons in Hin as [[= -> ->] | Hin]; eauto.
Qed.

(** A batch without nil pointers is dispatched to the end. *)
Lemma run_calls_returns (m : Manager) (ctx : Ctx) (rq : list (option Request)) :
  Forall is_Some rq -> forall t, exists all, run_calls m ctx rq t = Ret all.
Proof.
  induction 1 as [| r rq [req ->] _ IH]; intros t; simpl; [eauto |].
  destruct (execMethod_returns m ctx req t) as [c Hc]. rewrite Hc. simpl.
  destruct (IH (c_end c)) as [rest ->]. simpl. eauto.
Qed.

Context {dec : JSONDecoder}.

(** What [Handle] does with a batch that was decoded: the calls that pass
    the test of the loop are encoded as they are when the loop ends, and
    handed to the encoder as nothing, one object or one array. *)
Lemma Handle_output (m : Manager) (ctx : option Ctx) (r : Reader) (w : Writer)
    (t0 : Time) (rq : list (option Request)) (all : list (Request * call)) :
  parseMethodRequest r = inr rq -> rq <> [] ->
  run_calls m (default Background ctx) rq t0 = Ret all ->
  let docs := (fun p => encodeResponse (settle (end_of t0 all) p.2))
                <$> List.filter retained all in
  Handle m ctx (Some r) (Some w) t0 =
    Ret {| h_out := (emit w docs).1;
           h_err := IOError <$> (emit w docs).2;
           h_log := logs all |}.
Proof.
  intros Hparse Hne Hall docs. unfold Handle. rewrite Hparse.
  destruct rq as [| r0 rq]; [contradiction |].
  change (length (r0 :: rq) =? 0)%nat with false. cbv iota.
  rewrite dispatch_spec, Hall. simpl.
  subst docs. rewrite <- list_fmap_compose.
  destruct (List.filter retained all) as [| p1 [| p2 kept]]; simpl.
  - reflexivity.
  - unfold Encode. destruct (w_fail w); reflexivity.
  - unfold Encode. destruct (w_fail w); reflexivity.
Qed.

End Calls.


(** ** Documents *)

Lemma member_jsonrpc (res : Response) :
  member "jsonrpc" (encodeResponse res) = Some (JStr (res_Version res)).
Proof. reflexivity. Qed.

Lemma member_id (res : Response) :
  member "id" (encodeResponse res) =
    Some (match res_ID res with Some raw => JRaw raw | None => JNull end).
Proof. reflexivity. Qed.

Lemma member_result (res : Response) :
  member "result" (encodeResponse res) = encodeAny (res_Result res).
Proof.
  unfold encodeResponse, member. simpl.
  destruct (encodeAny (res_Result res)); simpl; [reflexivity |].
  destruct (res_Error res); reflexivity.
Qed.

Lemma member_error (res : Response) :
  member "error" (encodeResponse res) = encodeError <$> res_Error res.
Proof.
  unfold encodeResponse, member. simpl.
  destruct (encodeAny (res_Result res)); simpl; destruct (res_Error res); reflexivity.
Qed.

(** With a writer that takes its input, the sink holds the responses handed
    to the encoder. *)
Lemma responses_of_emit (w : Writer) (rs : list Response) :
  w_fail w = None -> responses_of (emit w (encodeResponse <$> rs)).1 = encodeResponse <$> rs.
Proof.
  intros Hw. unfold emit, Encode, responses_of. rewrite Hw.
  destruct rs as [| r1 [| r2 rs]]; simpl; rewrite ?app_nil_r; reflexivity.
Qed.

Lemma responses_of_emit_elem (w : Writer) (rs : list Response) (doc : json) :
  doc ∈ responses_of (emit w (encodeResponse <$> rs)).1 -> doc ∈ encodeResponse <$> rs.
Proof.
  unfold emit, Encode, responses_of.
  destruct (w_fail w); destruct rs as [| r1 [| r2 rs]]; simpl; rewrite ?app_nil_r; auto;
    intros Hin; inversion Hin.
Qed.

Lemma encode_settled {sched : Scheduler} (t : Time) (l : list (Request * call)) :
  (fun p => encodeResponse (settle t p.2)) <$> l =
    encodeResponse <$> ((fun p => settle t p.2) <$> l).
Proof. rewrite <- list_fmap_compose. reflexivity. Qed.

Lemma filter_sublist {A} (f : A -> bool) (l : list A) : List.filter f l `sublist_of` l.
Proof.
  induction l as [| x l IH]; simpl; [constructor |].
  destruct (f x); [apply sublist_skip | apply sublist_cons]; exact IH.
Qed.

Lemma elem_of_filter_bool {A} (f : A -> bool) (l : list A) (x : A) :
  x ∈ List.filter f l -> x ∈ l /\ f x = true.
Proof. rewrite !list_elem_of_In. apply filter_In. Qed.

(** ** [Handle] *)

#[local] Arguments encodeResponse : simpl never.
#[local] Arguments settle : simpl never.

Section Handle.
Context {dec : JSONDecoder} {sched : Scheduler}.

(** C8.  When the input decodes to an empty array, [Handle] writes
    nothing and returns InvalidRequest with the data "no methods
    specified". *)
Theorem Handle_empty_batch (m : Manager) (ctx : option Ctx) (r : Reader) (w : Writer)
    (t0 : Time) :
  parseMethodRequest r = inr [] ->
  Handle m ctx (Some r) (Some w) t0 =
    Ret {| h_out := [];
           h_err := Some (RPCError {| Code := -32600; Message := "Invalid Request";
                                      Data := Val (JStr "no methods specified") |});
           h_log := [] |}.
Proof. intros Hparse. unfold Handle. rewrite Hparse. reflexivity. Qed.

(** C5.  Of the per-call responses of a decoded batch, the loop keeps
    those whose request has an identifier or whose error is set, and no
    others, in request order, and these are what the sink receives.  So a
    notification whose handler leaves no error puts nothing in the sink, and
    one whose handler leaves an error is answered with that error. *)
Theorem Handle_retains_id_or_error (m : Manager) (ctx : option Ctx) (r : Reader)
    (w : Writer) (t0 : Time) (rq : list (option Request)) :
  parseMethodRequest r = inr rq -> rq <> [] -> Forall is_Some rq ->
  w_fail w = None ->
  exists all h,
    run_calls m (default Background ctx) rq t0 = Ret all
    /\ dispatch m (default Background ctx) rq t0 [] [] =
         Ret ((List.filter
                 (fun p => bool_decide (is_Some (r_ID p.1))
                           || bool_decide (is_Some (res_Error (c_res p.2)))) all).*2,
              end_of t0 all, logs all)
    /\ Handle m ctx (Some r) (Some w) t0 = Ret h
    /\ h_err h = None
    /\ responses_of (h_out h) =
         (fun p => encodeResponse (settle (end_of t0 all) p.2))
           <$> List.filter
                 (fun p => bool_decide (is_Some (r_ID p.1))
                           || bool_decide (is_Some (res_Error (c_res p.2)))) all
    /\ (forall req c, all = [(req, c)] -> r_ID req = None ->
          res_Error (c_res c) = None -> h_out h = [])
    /\ (forall req c e, all = [(req, c)] -> r_ID req = None ->
          res_Error (c_res c) = Some e ->
          h_out h = [encodeResponse (c_res c)]
          /\ member "error" (encodeResponse (c_res c)) = Some (encodeError e)).
Proof.
  intros Hparse Hne Hsome Hw.
  destruct (run_calls_returns m (default Background ctx) rq Hsome t0) as [all Hall].
  pose proof (Handle_output m ctx r w t0 rq all Hparse Hne Hall) as Hout.
  cbv zeta in Hout. exists all. eexists. split; [exact Hall |].
  split; [rewrite dispatch_spec, Hall; reflexivity |].
  split; [exact Hout |]. cbn [h_out h_err h_log].
  split; [| split; [| split]].
  - unfold emit, Encode. rewrite Hw.
    destruct (_ <$> List.filter retained all) as [| ? [| ? ?]]; reflexivity.
  - rewrite (encode_settled (end_of t0 all) (List.filter retained all)).
    rewrite responses_of_emit by exact Hw.
    rewrite <- encode_settled. reflexivity.
  - intros req c -> Hid Herr. simpl. unfold retained. simpl.
    rewrite Hid, Herr. reflexivity.
  - intros req c e -> Hid Herr.
    assert (Hc : exists t', execMethod m (default Background ctx) (Some req) t' = Ret c).
    { eapply run_calls_elem; [exact Hall | left]. }
    destruct Hc as [t' Hc]. apply execMethod_settle_now in Hc.
    split; [| rewrite member_error, Herr; reflexivity].
    simpl. unfold retained. simpl. rewrite Hid, Herr. simpl.
    unfold Encode. rewrite Hw. simpl. unfold end_of. simpl. rewrite Hc.
    reflexivity.
Qed.

(** C6.  After the filter: no response kept, nothing is written and
    [Handle] returns nil; one kept, the encoder is given that response, an
    object; two or more, the encoder is given one array of them.  The kept
    responses are in the order of their requests.  What the encoder is
    given reaches the sink unless the writer fails, and then its error is
    returned. *)
Theorem Handle_encodes_by_count (m : Manager) (ctx : option Ctx) (r : Reader)
    (w : Writer) (t0 : Time) (rq : list (option Request)) :
  parseMethodRequest r = inr rq -> rq <> [] -> Forall is_Some rq ->
  exists all h,
    run_calls m (default Background ctx) rq t0 = Ret all
    /\ rq = Some <$> all.*1
    /\ List.filter retained all `sublist_of` all
    /\ Handle m ctx (Some r) (Some w) t0 = Ret h
    /\ match (fun p => encodeResponse (settle (end_of t0 all) p.2))
               <$> List.filter retained all
       with
       | [] => h_out h = [] /\ h_err h = None
       | [doc] =>
           (exists fields, doc = JObj fields)
           /\ match w_fail w with
              | None => h_out h = [doc] /\ h_err h = None
              | Some e => h_out h = [] /\ h_err h = Some (IOError e)
              end
       | docs =>
           match w_fail w with
           | None => h_out h = [JArr docs] /\ h_err h = None
           | Some e => h_out h = [] /\ h_err h = Some (IOError e)
           end
       end.
Proof.
  intros Hparse Hne Hsome.
  destruct (run_calls_returns m (default Background ctx) rq Hsome t0) as [all Hall].
  pose proof (Handle_output m ctx r w t0 rq all Hparse Hne Hall) as Hout.
  cbv zeta in Hout. exists all. eexists. split; [exact Hall |].
  split; [eapply run_calls_requests; exact Hall |].
  split; [apply filter_sublist |].
  split; [exact Hout |]. cbn [h_out h_err h_log].
  unfold emit, Encode.
  destruct (List.filter retained all) as [| p1 [| p2 kept']]; simpl.
  - auto.
  - split; [eexists; reflexivity |]. destruct (w_fail w); auto.
  - destruct (w_fail w); auto.
Qed.

End Handle.


Section Echo.
Context {dec : JSONDecoder} {sched : Scheduler}.

(** A nil pointer in the batch stops [Handle] with the panic of the call
    that meets it. *)
Lemma Handle_panics (m : Manager) (ctx : option Ctx) (r : Reader) (w : Writer)
    (t0 : Time) (rq : list (option Request)) (msg : string) :
  parseMethodRequest r = inr rq -> rq <> [] ->
  run_calls m (default Background ctx) rq t0 = Panic msg ->
  Handle m ctx (Some r) (Some w) t0 = Panic msg.
Proof.
  intros Hparse Hne Hall. unfold Handle. rewrite Hparse.
  destruct rq as [| r0 rq]; [contradiction |].
  change (length (r0 :: rq) =? 0)%nat with false. cbv iota.
  rewrite dispatch_spec, Hall. reflexivity.
Qed.

(** C3 as the code has it.  The responses that reach the sink are, one for
    one and in order, the responses to the requests of the batch that pass
    the test of the loop, each request taken with the call [execMethod]
    made of it: the i-th response written carries the version string and
    the identifier of the i-th such request, null when that request has
    none.  The version is the request's, ["2.0"] or not.  A writer that
    fails receives nothing.  For a single request of version ["2.0"] that
    has an identifier, the sink receives one response, of version ["2.0"]
    and with that identifier. *)
Theorem Handle_echoes_version_and_id (m : Manager) (ctx : option Ctx) (r : Reader)
    (w : Writer) (t0 : Time) (rq : list (option Request)) (h : handled) :
  parseMethodRequest r = inr rq ->
  Handle m ctx (Some r) (Some w) t0 = Ret h ->
  (exists all,
     run_calls m (default Background ctx) rq t0 = Ret all
     /\ rq = Some <$> all.*1
     /\ (is_Some (w_fail w) -> h_out h = [])
     /\ (w_fail w = None ->
           member "jsonrpc" <$> responses_of (h_out h)
             = (fun p => Some (JStr (r_Version p.1))) <$> List.filter retained all
           /\ member "id" <$> responses_of (h_out h)
               = (fun p => Some (match r_ID p.1 with
                                 | Some raw => JRaw raw
                                 | None => JNull
                                 end)) <$> List.filter retained all))
  /\ (forall doc, doc ∈ responses_of (h_out h) ->
        exists req, Some req ∈ rq
          /\ member "jsonrpc" doc = Some (JStr (r_Version req))
          /\ member "id" doc =
               Some (match r_ID req with Some raw => JRaw raw | None => JNull end))
  /\ (forall req, rq = [Some req] -> r_Version req = version ->
        is_Some (r_ID req) -> w_fail w = None ->
        exists doc, h_out h = [doc]
          /\ member "jsonrpc" doc = Some (JStr "2.0")
          /\ member "id" doc = JRaw <$> r_ID req).
Proof.
  intros Hparse Hh.
  destruct rq as [| r0 rq'] eqn:Hrq.
  { unfold Handle in Hh. rewrite Hparse in Hh. injection Hh as <-.
    split; [| split; [intros doc Hin; inversion Hin | discriminate]].
    exists []. repeat split; reflexivity. }
  rewrite <- Hrq in *. assert (Hne : rq <> []) by (rewrite Hrq; discriminate).
  destruct (run_calls m (default Background ctx) rq t0) as [all | msg] eqn:Hall.
  2: { rewrite (Handle_panics m ctx r w t0 rq msg Hparse Hne Hall) in Hh. discriminate. }
  rewrite (Handle_output m ctx r w t0 rq all Hparse Hne Hall) in Hh.
  injection Hh as <-. cbn [h_out].
  rewrite (encode_settled (end_of t0 all) (List.filter retained all)).
  assert (Hecho : forall p, p ∈ List.filter retained all ->
            res_Version (settle (end_of t0 all) p.2) = r_Version p.1
            /\ res_ID (settle (end_of t0 all) p.2) = r_ID p.1).
  { intros [req c] Hin. apply elem_of_filter_bool in Hin as [Hin _].
    destruct (run_calls_elem m _ rq t0 all req c Hall Hin) as [t' Hc].
    exact (execMethod_echo m _ req t' c Hc (end_of t0 all)). }
  split; [| split].
  - exists all. split; [reflexivity |].
    split; [exact (run_calls_requests m _ rq t0 all Hall) |].
    split.
    + intros [e He]. unfold emit, Encode. rewrite He.
      destruct (List.filter retained all) as [| p1 [| p2 kept]]; reflexivity.
    + intros Hw. rewrite (responses_of_emit w _ Hw), <- !list_fmap_compose.
      split; apply Forall_fmap_ext_1, Forall_forall; intros p Hin;
        destruct (Hecho p Hin) as [Hv Hi]; cbn [compose];
        [rewrite member_jsonrpc, Hv | rewrite member_id, Hi]; reflexivity.
  - intros doc Hin. apply responses_of_emit_elem in Hin.
    apply list_elem_of_fmap in Hin as (res & -> & Hin).
    apply list_elem_of_fmap in Hin as ([req c] & -> & Hin).
    destruct (Hecho _ Hin) as [Hv Hi].
    apply elem_of_filter_bool in Hin as [Hin _].
    exists req. split.
    + rewrite (run_calls_requests m _ rq t0 all Hall).
      apply list_elem_of_fmap. exists req. split; [reflexivity |].
      apply list_elem_of_fmap. exists (req, c). auto.
    + rewrite member_jsonrpc, member_id. cbn [snd fst] in *. rewrite Hv, Hi. auto.
  - intros req Hone Hv Hid Hw. rewrite Hone in Hall. simpl in Hall.
    destruct (execMethod_returns m (default Background ctx) req t0) as [c Hc].
    rewrite Hc in Hall. simpl in Hall. injection Hall as <-.
    destruct (execMethod_echo m _ req t0 c Hc (end_of t0 [(req, c)])) as [Hv' Hi].
    assert (Hkeep : retained (req, c) = true).
    { unfold retained. cbn [fst]. rewrite bool_decide_eq_true_2 by exact Hid. reflexivity. }
    cbn [List.filter]. rewrite Hkeep. cbn [fmap list_fmap emit].
    unfold Encode. rewrite Hw. cbn [fst]. eexists. split; [reflexivity |].
    rewrite member_jsonrpc, member_id. cbn [snd]. rewrite Hv', Hi, Hv.
    destruct (r_ID req); [auto | destruct Hid; discriminate].
Qed.

(** C1 as the code has it.  When [execMethod] returns without the
    deadline having fired, the response never has both a result and an
    error: if the error is set the result is nil.  Nothing touches the
    response afterwards, so this is also what is encoded. *)
Theorem execMethod_never_both (m : Manager) (ctx : Ctx) (req : Request) (t0 : Time)
    (c : call) :
  execMethod m ctx (Some req) t0 = Ret c ->
  (forall name, Expired name ∉ c_log c) ->
  (is_Some (res_Error (c_res c)) -> res_Result (c_res c) = Nil)
  /\ (forall t, settle t c = c_res c
        /\ ~ (is_Some (member "result" (encodeResponse (settle t c)))
              /\ is_Some (member "error" (encodeResponse (settle t c))))).
Proof.
  intros Hc Hlog.
  assert (Hres : (is_Some (res_Error (c_res c)) -> res_Result (c_res c) = Nil)
                 /\ c_pending c = []).
  { revert Hc Hlog. exec_cases req; intros [= <-] Hlog; cbn [c_res c_pending c_log] in *;
      try (split; reflexivity).
    - destruct (res_Error (apply_writes _ ws)) eqn:He; cbn.
      + split; reflexivity.
      + split; [| reflexivity]. rewrite He. intros [? ?]. discriminate.
    - exfalso. apply (Hlog (r_Method req)). set_solver. }
  destruct Hres as [Hboth Hpend]. split; [exact Hboth |].
  intros t. assert (Hs : settle t c = c_res c).
  { unfold settle. rewrite Hpend. reflexivity. }
  split; [exact Hs |]. rewrite Hs, member_result, member_error.
  intros [Hr He]. apply fmap_is_Some in He. rewrite (Hboth He) in Hr.
  destruct Hr. discriminate.
Qed.

(** When the deadline fires, the error is ExecutionTimeout; the result is
    whatever the handler had written by then. *)
Lemma execMethod_deadline (m : Manager) (ctx : Ctx) (req : Request) (t0 : Time)
    (c : call) (name : string) :
  execMethod m ctx (Some req) t0 = Ret c ->
  Expired name ∈ c_log c ->
  res_Error (c_res c) = Some (newError errCodeExecutionTimeout Nil)
  /\ c_end c = Z.max t0 (deadline ctx t0 (timeout m)).
Proof.
  exec_cases req; intros [= <-]; cbn [c_res c_log c_end app]; intros Hin;
    try (split; reflexivity); exfalso;
    repeat (apply elem_of_cons in Hin as [Hin | Hin]; [discriminate |]);
    inversion Hin.
Qed.

(** The deadline is what [execMethod] returns on exactly when a handler was
    started and, by the instant the deadline can be taken, has not
    returned. *)
Lemma execMethod_expired_iff (m : Manager) (ctx : Ctx) (req : Request) (t0 : Time)
    (c : call) :
  execMethod m ctx (Some req) t0 = Ret c ->
  (Expired (r_Method req) ∈ c_log c <->
     r_Version req = version /\ r_Method req <> ""
     /\ exists method req',
          methods m !! r_Method req = Some method
          /\ WithContext req (Some (WithTimeout ctx t0 (timeout m))) = Ret req'
          /\ finished_by (Z.max t0 (deadline ctx t0 (timeout m)))
                         (timeline t0 (method req')).2 = false).
Proof.
  exec_cases req; intros [= <-]; cbn [c_log app]; split;
    try (intros Hin;
         repeat (apply elem_of_cons in Hin as [Hin | Hin]; [discriminate |]);
         inversion Hin; fail);
    try (intros (? & ? & ?); congruence).
  - intros (_ & _ & method' & req' & [= <-] & [= <-] & Hfin).
    match goal with H : timeline _ _ = _ |- _ => rewrite H in Hfin end.
    simpl in Hfin. congruence.
  - intros _. split; [assumption |]. split; [assumption |].
    eexists _, _. split; [reflexivity |]. split; [reflexivity |].
    match goal with H : timeline _ _ = _ |- _ => rewrite H end. assumption.
  - intros _. set_solver.
  - intros (_ & _ & method' & req' & Hm & _). congruence.
Qed.

End Echo.


(** ** The package on concrete inputs *)

Section Concrete.
Import Go_json Handlers.
#[local] Existing Instance Go_json.decoder.

(** C1 as stated fails: a handler that returns without touching the
    response gives a response, sent to the sink, that has neither a result
    nor an error. *)
Lemma noop_handler_neither_result_nor_error :
  let doc := JObj [("jsonrpc", JStr "2.0"); ("id", JRaw "1")] in
  let h := {| h_out := [doc]; h_err := None;
              h_log := [Lookup "noop"; Spawn "noop"; Finished "noop"] |} in
  run (sched := handler_wins) "{'jsonrpc':'2.0','method':'noop','id':1}" = Ret h
  /\ run (sched := dispatcher_wins) "{'jsonrpc':'2.0','method':'noop','id':1}" = Ret h
  /\ member "result" doc = None
  /\ member "error" doc = None.
Proof. repeat split; vm_compute; reflexivity. Qed.

(** C2 on the code: a handler that sets a result and is still running at
    the deadline.  The response has the ExecutionTimeout error and keeps
    the result. *)
Lemma deadline_keeps_result :
  let doc := JObj [("jsonrpc", JStr "2.0"); ("id", JRaw "1"); ("result", JNum 1);
                   ("error", JObj [("code", JNum (-32002));
                                   ("message", JStr "Method execution timeout")])] in
  let h := {| h_out := [doc]; h_err := None;
              h_log := [Lookup "eager"; Spawn "eager"; Expired "eager"] |} in
  run (sched := handler_wins) "{'jsonrpc':'2.0','method':'eager','id':1}" = Ret h
  /\ run (sched := dispatcher_wins) "{'jsonrpc':'2.0','method':'eager','id':1}" = Ret h
  /\ member "result" doc = Some (JNum 1)
  /\ is_Some (member "error" doc).
Proof. repeat split; try (vm_compute; reflexivity). eexists. reflexivity. Qed.

(** The same for a result set after the deadline: in a batch the first
    response is encoded when the second call is over, and by then the
    first handler has written to it. *)
Lemma deadline_then_late_result :
  let timed_out := JObj [("code", JNum (-32002));
                         ("message", JStr "Method execution timeout")] in
  let docs := [JObj [("jsonrpc", JStr "2.0"); ("id", JRaw "1"); ("result", JNum 7);
                     ("error", timed_out)];
               JObj [("jsonrpc", JStr "2.0"); ("id", JRaw "2"); ("error", timed_out)]] in
  exists log,
    run (sched := handler_wins)
        "[{'jsonrpc':'2.0','method':'late','id':1},{'jsonrpc':'2.0','method':'late','id':2}]"
      = Ret {| h_out := [JArr docs]; h_err := None; h_log := log |}.
Proof. eexists. vm_compute. reflexivity. Qed.

(** C3 as stated fails: the empty object of the package's test table is
    answered with the version it came with, the empty string. *)
Lemma empty_object_echoes_empty_version :
  let doc := JObj [("jsonrpc", JStr ""); ("id", JNull);
                   ("error", JObj [("code", JNum (-32001));
                                   ("message", JStr "JSON RPC Version must be 2.0");
                                   ("data", JStr "")])] in
  let h := {| h_out := [doc]; h_err := None; h_log := [] |} in
  run (sched := handler_wins) "{}" = Ret h
  /\ run (sched := dispatcher_wins) "{}" = Ret h
  /\ member "jsonrpc" doc <> Some (JStr "2.0").
Proof. repeat split; try (vm_compute; reflexivity). discriminate. Qed.

(** C4 as stated fails on an array that follows white space.  The first
    character that is not white space is the opening bracket and the input
    decodes as an (empty) array of requests, yet [parseMethodRequest]
    decodes it as a single request and reports InvalidRequest. *)
Lemma parseMethodRequest_leading_space :
  let r := bytes_Reader " []" in
  skip_ws (stream r) = "[]"
  /\ Decode_Requests r = inr []
  /\ parseMethodRequest r =
       inl {| Code := -32600; Message := "Invalid Request";
              Data := Err (UnmarshalTypeError "array" "jrpc2go.Request") |}.
Proof. repeat split. Qed.

End Concrete.


(** ** The theorems at concrete inputs *)

Section Witnesses.
Import Go_json Handlers.
#[local] Existing Instance Go_json.decoder.

Lemma execMethod_rejects_version_witness :
  let req := {| r_Version := "1.0"; r_Method := "no-such-method"; r_ID := Some "7";
                r_Params := None; r_ctx := None |} in
  r_Version req <> version
  /\ execMethod (sched := handler_wins) registry Background (Some req) 0 =
       Ret {| c_res := {| res_Version := "1.0"; res_ID := Some "7"; res_Result := Nil;
                          res_Error := Some {| Code := -32001;
                                               Message := "JSON RPC Version must be 2.0";
                                               Data := Val (JStr "1.0") |} |};
              c_pending := []; c_end := 0; c_log := [] |}.
Proof.
  intros req. split; [discriminate |].
  apply (execMethod_rejects_version registry Background req 0). discriminate.
Defined.

Lemma Handle_empty_batch_witness :
  parseMethodRequest (bytes_Reader "[]") = inr []
  /\ Handle (sched := handler_wins) registry None (Some (bytes_Reader "[]"))
            (Some (mkWriter None)) 0 =
       Ret {| h_out := [];
              h_err := Some (RPCError {| Code := -32600; Message := "Invalid Request";
                                         Data := Val (JStr "no methods specified") |});
              h_log := [] |}.
Proof.
  split; [reflexivity |].
  apply (Handle_empty_batch registry None (bytes_Reader "[]") (mkWriter None) 0).
  reflexivity.
Defined.

Lemma Handle_retains_id_or_error_witness :
  let r := bytes_Reader (q batch_input) in
  let w := mkWriter None in
  parseMethodRequest r = inr batch
  /\ batch <> []
  /\ Forall is_Some batch
  /\ exists h,
       Handle (sched := handler_wins) registry (Some Background) (Some r) (Some w) 0 = Ret h
       /\ h_err h = None
       /\ responses_of (h_out h) =
            [JObj [("jsonrpc", JStr "2.0"); ("id", JNull);
                   ("error", JObj [("code", JNum 7); ("message", JStr "failed")])];
             JObj [("jsonrpc", JStr "2.0"); ("id", JRaw "3"); ("result", JNum 3)]].
Proof.
  intros r w.
  assert (Hparse : parseMethodRequest r = inr batch) by (vm_compute; reflexivity).
  assert (Hne : batch <> []) by discriminate.
  assert (Hsome : Forall is_Some batch) by (repeat constructor; eexists; reflexivity).
  repeat (split; [assumption |]).
  destruct (Handle_retains_id_or_error (sched := handler_wins) registry (Some Background)
              r w 0 batch Hparse Hne Hsome eq_refl)
    as (all & h & Hall & _ & Hh & Herr & Hresp & _).
  exists h. split; [exact Hh |]. split; [exact Herr |].
  rewrite Hresp. vm_compute in Hall. injection Hall as <-. vm_compute. reflexivity.
Defined.

Lemma Handle_encodes_by_count_witness :
  let r := bytes_Reader (q batch_input) in
  let w := mkWriter None in
  parseMethodRequest r = inr batch
  /\ batch <> []
  /\ Forall is_Some batch
  /\ exists h,
       Handle (sched := handler_wins) registry (Some Background) (Some r) (Some w) 0 = Ret h
       /\ h_out h =
            [JArr [JObj [("jsonrpc", JStr "2.0"); ("id", JNull);
                         ("error", JObj [("code", JNum 7); ("message", JStr "failed")])];
                   JObj [("jsonrpc", JStr "2.0"); ("id", JRaw "3"); ("result", JNum 3)]]]
       /\ h_err h = None.
Proof.
  intros r w.
  assert (Hparse : parseMethodRequest r = inr batch) by (vm_compute; reflexivity).
  assert (Hne : batch <> []) by discriminate.
  assert (Hsome : Forall is_Some batch) by (repeat constructor; eexists; reflexivity).
  repeat (split; [assumption |]).
  destruct (Handle_encodes_by_count (sched := handler_wins) registry (Some Background)
              r w 0 batch Hparse Hne Hsome)
    as (all & h & Hall & _ & _ & Hh & Hdocs).
  exists h. split; [exact Hh |].
  vm_compute in Hall. injection Hall as <-. exact Hdocs.
Defined.

Lemma Handle_echoes_version_and_id_witness :
  let r := Inputs.reader Inputs.identified_input in
  let w := mkWriter None in
  exists h,
    parseMethodRequest r = inr Inputs.identified
    /\ Handle (sched := handler_wins) registry None (Some r) (Some w) 0 = Ret h
    /\ member "jsonrpc" <$> responses_of (h_out h)
        = [Some (JStr "2.0"); Some (JStr "1.0"); Some (JStr "2.0")]
    /\ member "id" <$> responses_of (h_out h)
        = [Some (JRaw "1"); Some (JRaw (q "'b'")); Some (JRaw "3")].
Proof.
  intros r w.
  assert (Hparse : parseMethodRequest r = inr Inputs.identified)
    by (vm_compute; reflexivity).
  eexists. split; [exact Hparse |].
  split; [vm_compute; reflexivity |].
  match goal with
  | |- context [h_out ?h] =>
      assert (Hh : Handle (sched := handler_wins) registry None (Some r) (Some w) 0 = Ret h)
        by (vm_compute; reflexivity);
      destruct (proj1 (Handle_echoes_version_and_id registry None r w 0
                         Inputs.identified h Hparse Hh))
        as (all & Hall & _ & _ & Hpos)
  end.
  destruct (Hpos eq_refl) as [Hv Hi].
  vm_compute in Hall. injection Hall as <-.
  split; [exact Hv | exact Hi].
Defined.

Lemma execMethod_never_both_witness :
  execMethod (sched := dispatcher_wins) registry Background (Some failing_request) 0
    = Ret failing_call
  /\ (forall name, Expired name ∉ c_log failing_call)
  /\ (is_Some (res_Error (c_res failing_call)) -> res_Result (c_res failing_call) = Nil)
  /\ (forall t, settle (sched := dispatcher_wins) t failing_call = c_res failing_call
        /\ ~ (is_Some (member "result"
                         (encodeResponse (settle (sched := dispatcher_wins) t failing_call)))
              /\ is_Some (member "error"
                            (encodeResponse (settle (sched := dispatcher_wins) t failing_call))))).
Proof.
  assert (Hc : execMethod (sched := dispatcher_wins) registry Background
                 (Some failing_request) 0 = Ret failing_call)
    by (vm_compute; reflexivity).
  assert (Hlog : forall name, Expired name ∉ c_log failing_call).
  { intros name Hin. simpl in Hin.
    repeat (apply elem_of_cons in Hin as [Hin | Hin]; [discriminate |]).
    inversion Hin. }
  split; [exact Hc |]. split; [exact Hlog |].
  exact (execMethod_never_both registry Background failing_request 0 failing_call Hc Hlog).
Defined.



End Witnesses.

(** ** The test table of the package, replayed *)

Section TestTable.
Import Go_json.
Context (sched : Scheduler).
#[local] Existing Instance Go_json.decoder.

Ltac replay := destruct sched as [[]]; vm_compute; reflexivity.

Example test_no_reader :
  Tests.run None None (Some Tests.buffer) =
    Ret (failed (newError ErrCodeInternal (str "r io.Reader can't be nil"))).
Proof. replay. Qed.

Example test_no_writer :
  Tests.run None (Some (q Handlers.call_input)) None =
    Ret (failed (newError ErrCodeInternal (str "w io.Writer can't be nil"))).
Proof. replay. Qed.

Example test_valid_request :
  Tests.run None
    (Some (q "{'jsonrpc': '2.0','method': 'add','id': '1','params': {'v1': 10,'v2': 120}}"))
    (Some Tests.buffer) =
    Tests.wrote (JObj [("jsonrpc", JStr "2.0"); ("id", JRaw (q "'1'")); ("result", JNum 130)])
          [Lookup "add"; Spawn "add"; Finished "add"].
Proof. replay. Qed.

Example test_valid_batch :
  h_out <$> (match Tests.run (Some Background)
    (Some (q "[{'jsonrpc':'2.0','method':'add','id':'1','params':{'v1':10,'v2':120}},{'jsonrpc':'2.0','method':'sum','id':'2','params':{'v1':10,'v2':20}}]"))
    (Some Tests.buffer) with Ret h => Some h | Panic _ => None end) =
    Some [JArr [JObj [("jsonrpc", JStr "2.0"); ("id", JRaw (q "'1'")); ("result", JNum 130)];
                JObj [("jsonrpc", JStr "2.0"); ("id", JRaw (q "'2'")); ("result", JNum 30)]]].
Proof. replay. Qed.

Example test_empty_request :
  Tests.run (Some Background) (Some "") (Some Tests.buffer) =
    Ret (failed (newError errCodeParseError (str "fail to read the request text: EOF"))).
Proof. replay. Qed.

Example test_empty_batch :
  Tests.run (Some Background) (Some "[]") (Some Tests.buffer) =
    Ret (failed (newError errCodeInvalidRequest (str "no methods specified"))).
Proof. replay. Qed.

Example test_method_not_found :
  Tests.run (Some Background)
    (Some (q "{'jsonrpc': '2.0','method': 'no-method','id': '1','params': {'v1': 10,'v2': 1}}"))
    (Some Tests.buffer) =
    Tests.wrote (JObj [("jsonrpc", JStr "2.0"); ("id", JRaw (q "'1'"));
                 ("error", JObj [("code", JNum (-32601)); ("message", JStr "Method not found");
                                 ("data", JStr "no-method")])])
          [Lookup "no-method"].
Proof. replay. Qed.

Example test_no_method :
  Tests.run (Some Background)
    (Some (q "{'jsonrpc': '2.0','id': '1','params': {'v1': 10,'v2': 1}}"))
    (Some Tests.buffer) =
    Tests.wrote (JObj [("jsonrpc", JStr "2.0"); ("id", JRaw (q "'1'"));
                 ("error", JObj [("code", JNum (-32601)); ("message", JStr "Method not found");
                                 ("data", JStr "Method not specified or empty")])])
          [].
Proof. replay. Qed.

Example test_request_timeout :
  Tests.run (Some Background)
    (Some (q "{'jsonrpc': '2.0','method': 'sum','id': '1','params': {'v1': 10,'v2': 10}}"))
    (Some Tests.buffer) =
    Tests.wrote (JObj [("jsonrpc", JStr "2.0"); ("id", JRaw (q "'1'"));
                 ("error", JObj [("code", JNum (-32002));
                                 ("message", JStr "Method execution timeout")])])
          [Lookup "sum"; Spawn "sum"; Expired "sum"].
Proof. replay. Qed.

Example test_error_with_result :
  Tests.run (Some Background)
    (Some (q "{'jsonrpc': '2.0','method': 'sum','id': '1','params': {'v1': 0,'v2': 1}}"))
    (Some Tests.buffer) =
    Tests.wrote (JObj [("jsonrpc", JStr "2.0"); ("id", JRaw (q "'1'"));
                 ("error", JObj [("code", JNum 1); ("message", JStr "Fake error for test")])])
          [Lookup "sum"; Spawn "sum"; Finished "sum"].
Proof. replay. Qed.

(** Not in the table: the literal [null] decodes to a nil request, which
    [execMethod] dereferences. *)
Example null_request_panics :
  Tests.run (Some Background) (Some "null") (Some Tests.buffer) =
    Panic "invalid memory address or nil pointer dereference".
Proof. replay. Qed.

End TestTable.

(** * Further properties *)

(** ** errors.go *)

(** X1.  The texts [newError] attaches tell the catalogue codes apart: a
    code gets a text exactly when it is one of the seven codes of the
    catalogue, and two errors built by [newError] with the same non-empty
    text have the same code. *)
Theorem newError_message_identifies_code :
  (forall code data,
     Message (newError code data) <> "" <->
     code ∈ [errCodeParseError; errCodeInvalidRequest; errCodeMethodNotFound;
             errCodeInvalidParams; ErrCodeInternal; errCodeInvalidRPCVersion;
             errCodeExecutionTimeout])
  /\ (forall c1 c2 d1 d2,
        Message (newError c1 d1) = Message (newError c2 d2) ->
        Message (newError c1 d1) <> "" -> c1 = c2).
Proof.
  split.
  - intros code data. simpl. unfold newError_message. split.
    + repeat match goal with
        | |- context [if ?x =? ?y then _ else _] =>
            destruct (Z.eqb_spec x y) as [-> | ?]
        end; intros Hne; try (exfalso; apply Hne; reflexivity);
        repeat (first [left; reflexivity | right]).
    + intros Hin.
      repeat (apply elem_of_cons in Hin as [-> | Hin]; [discriminate |]).
      inversion Hin.
  - intros c1 c2 d1 d2. simpl. unfold newError_message.
    repeat match goal with
      | |- context [if ?x =? ?y then _ else _] =>
          destruct (Z.eqb_spec x y) as [-> | ?]
      end; intros Heq Hne; try reflexivity; try discriminate;
      exfalso; apply Hne; reflexivity.
Qed.

(** ** jrpc2go.go: contexts *)

(** X2.  [WithContext] panics exactly on a nil context.  Otherwise the copy
    it returns answers [Context()] with the context given and has the
    version, method, identifier and parameters of the original; attaching a
    second context to the copy gives what attaching it to the original
    gives.  A request that never had a context attached answers with the
    background context. *)
Theorem WithContext_Context (r : Request) (ctx : option Ctx) :
  ((exists msg, WithContext r ctx = Panic msg) <-> ctx = None)
  /\ (forall c, ctx = Some c ->
        exists r2, WithContext r ctx = Ret r2
          /\ Request_Context r2 = c
          /\ r_Version r2 = r_Version r /\ r_Method r2 = r_Method r
          /\ r_ID r2 = r_ID r /\ r_Params r2 = r_Params r
          /\ forall c', WithContext r2 (Some c') = WithContext r (Some c'))
  /\ (r_ctx r = None -> Request_Context r = Background).
Proof.
  split; [| split].
  - destruct ctx; simpl; split.
    + intros [msg H]. discriminate.
    + discriminate.
    + reflexivity.
    + eauto.
  - intros c ->. eexists. split; [reflexivity |]. simpl. repeat split.
  - intros H. unfold Request_Context. rewrite H. reflexivity.
Qed.

(** ** The manager file: [execMethod] *)

Section MoreCalls.
Context {sched : Scheduler}.

(** The request [execMethod] hands to the handler. *)
Lemma timeline_ge (s : list instr) :
  forall (t : Time) (ws : list (Time * write)) (fin : option Time),
    timeline t s = (ws, fin) ->
    (forall f, fin = Some f -> t <= f) /\ Forall (fun w => t <= w.1) ws.
Proof.
  induction s as [| i s IH]; intros t ws fin; simpl.
  - intros [= <- <-]. split; [intros f [= <-]; lia | constructor].
  - destruct i.
    + intros H. apply IH in H as [Hf Hw]. split.
      * intros f Hfin. specialize (Hf f Hfin). lia.
      * eapply Forall_impl; [exact Hw |]. simpl. intros; lia.
    + destruct (timeline t s) as [ws' fin'] eqn:Ht. intros [= <- <-].
      destruct (IH t ws' fin' Ht) as [Hf Hw]. split; [exact Hf |].
      constructor; [simpl; lia | exact Hw].
    + destruct (timeline t s) as [ws' fin'] eqn:Ht. intros [= <- <-].
      destruct (IH t ws' fin' Ht) as [Hf Hw]. split; [exact Hf |].
      constructor; [simpl; lia | exact Hw].
    + intros [= <- <-]. split; [discriminate | constructor].
Qed.

Lemma before_le (td th : Time) : before td th = true -> th <= td.
Proof.
  unfold before. intros H. apply orb_prop in H as [H | H].
  - apply Z.ltb_lt in H. lia.
  - apply andb_prop in H as [_ H]. apply Z.eqb_eq in H. lia.
Qed.

Lemma deadline_le (ctx : Ctx) (t0 : Time) (d : Duration) :
  deadline ctx t0 d <= t0 + d
  /\ forall p, done_at ctx = Some p -> deadline ctx t0 d <= p.
Proof.
  unfold deadline. simpl. destruct (done_at ctx) as [p |]; split; try lia.
  - intros p' [= <-]. lia.
  - discriminate.
Qed.

(** X3.  A request of the supported version whose method is empty or not
    registered is answered at once with MethodNotFound and no handler is
    started: with the data "Method not specified or empty" and without a
    look at the registry in the first case, with the name as data in the
    second. *)
Theorem execMethod_method_not_found (m : Manager) (ctx : Ctx) (req : Request) (t0 : Time) :
  r_Version req = version ->
  r_Method req = "" \/ methods m !! r_Method req = None ->
  execMethod m ctx (Some req) t0 =
    Ret {| c_res := {| res_Version := r_Version req; res_ID := r_ID req;
                       res_Result := Nil;
                       res_Error :=
                         Some {| Code := -32601; Message := "Method not found";
                                 Data := Val (JStr (if String.eqb (r_Method req) ""
                                                    then "Method not specified or empty"
                                                    else r_Method req)) |} |};
           c_pending := []; c_end := t0;
           c_log := if String.eqb (r_Method req) "" then []
                    else [Lookup (r_Method req)] |}.
Proof.
  intros Hv Hm. unfold execMethod. simpl.
  destruct (String.eqb_spec (r_Version req) version) as [_ | ?]; [| contradiction].
  simpl. destruct (String.eqb_spec (r_Method req) "") as [He | Hne]; [reflexivity |].
  destruct Hm as [? | Hm]; [contradiction |].
  match goal with
  | |- context [match ?x with Some _ => _ | None => _ end] =>
      replace x with (@None Method) by (symmetry; exact Hm)
  end.
  reflexivity.
Qed.

(** X4.  A response without an error only comes from a handler that was
    registered under the requested name and returned before the deadline
    was taken: the request has the supported version and a name, and
    nothing is left running. *)
Theorem execMethod_success_from_handler (m : Manager) (ctx : Ctx) (req : Request)
    (t0 : Time) (c : call) :
  execMethod m ctx (Some req) t0 = Ret c ->
  res_Error (c_res c) = None ->
  r_Version req = version /\ r_Method req <> ""
  /\ is_Some (methods m !! r_Method req)
  /\ c_log c = [Lookup (r_Method req); Spawn (r_Method req); Finished (r_Method req)]
  /\ c_pending c = [].
Proof.
  exec_cases req; intros [= <-]; cbn [c_res c_log c_pending res_Error set_Error];
    try discriminate.
  intros _. repeat split; eauto.
Qed.

(** X5.  The errors [execMethod] itself puts in a response, as opposed to
    those a handler that returned left there, are errors of the catalogue:
    the code is InvalidRPCVersion, MethodNotFound or ExecutionTimeout and
    the message is the text [newError] gives that code. *)
Theorem execMethod_own_errors (m : Manager) (ctx : Ctx) (req : Request)
    (t0 : Time) (c : call) (e : Error) :
  execMethod m ctx (Some req) t0 = Ret c ->
  res_Error (c_res c) = Some e ->
  Finished (r_Method req) ∉ c_log c ->
  Code e ∈ [errCodeInvalidRPCVersion; errCodeMethodNotFound; errCodeExecutionTimeout]
  /\ e = newError (Code e) (Data e)
  /\ Message e <> "".
Proof.
  exec_cases req; intros [= <-]; cbn [c_res c_log res_Error set_Error app];
    intros He Hlog;
    try (injection He as <-; simpl;
         split; [set_solver | split; [reflexivity | discriminate]]).
  exfalso. apply Hlog. set_solver.
Qed.

Lemma execMethod_end_bounds (m : Manager) (ctx : Ctx) (req : Request)
    (t0 : Time) (c : call) :
  execMethod m ctx (Some req) t0 = Ret c ->
  t0 <= c_end c <= Z.max t0 (deadline ctx t0 (timeout m)).
Proof.
  exec_cases req; intros [= <-]; cbn [c_end]; try lia.
  match goal with H : timeline _ _ = _ |- _ => apply timeline_ge in H as [Hge _] end.
  match goal with H : finished_by _ _ = true |- _ => rename H into Hfin end.
  destruct fin as [f |]; [| discriminate]. simpl in Hfin. apply before_le in Hfin.
  specialize (Hge f eq_refl). simpl. lia.
Qed.

(** X6.  [execMethod] returns no later than its deadline allows: not
    before it was called, not after the timeout of the manager has passed,
    and not after the caller's context is done. *)
Theorem execMethod_returns_by_deadline (m : Manager) (ctx : Ctx) (req : Request)
    (t0 : Time) (c : call) :
  execMethod m ctx (Some req) t0 = Ret c ->
  t0 <= c_end c
  /\ c_end c <= Z.max t0 (t0 + timeout m)
  /\ (forall p, done_at ctx = Some p -> c_end c <= Z.max t0 p).
Proof.
  intros Hc. apply execMethod_end_bounds in Hc.
  pose proof (deadline_le ctx t0 (timeout m)) as [Hd Hp].
  split; [lia |]. split; [lia |].
  intros p Hdone. specialize (Hp p Hdone). lia.
Qed.

(** X7.  The loop of [Handle] is over no later than one timeout per
    request after it started, whatever the handlers do. *)
Theorem dispatch_returns_by_deadlines (m : Manager) (ctx : Ctx)
    (rq : list (option Request)) :
  forall (t0 : Time) (resp : list call) (log : list event)
         (resp' : list call) (t : Time) (log' : list event),
    dispatch m ctx rq t0 resp log = Ret (resp', t, log') ->
    t0 <= t <= t0 + Z.of_nat (length rq) * Z.max 0 (timeout m).
Proof.
  induction rq as [| r rq IH]; intros t0 resp log resp' t log'.
  - simpl. intros [= _ <- _]. lia.
  - intros Hrest. cbn [dispatch] in Hrest. destruct r as [req |]; [| discriminate].
    destruct (execMethod m ctx (Some req) t0) as [c |] eqn:Hc; [| discriminate].
    simpl in Hrest. apply IH in Hrest.
    apply execMethod_end_bounds in Hc.
    pose proof (deadline_le ctx t0 (timeout m)) as [Hd _].
    rewrite length_cons, Nat2Z.inj_succ. nia.
Qed.

(** X8.  The handler is run on a copy of the request that differs from it
    by its context alone, and that context is done no later than the
    timeout after the call and no later than the caller's context: two
    managers with the same timeout whose handlers for the method agree on
    that copy give the same call. *)
Theorem execMethod_handler_argument (m m' : Manager) (ctx : Ctx) (req : Request)
    (t0 : Time) (method method' : Method) :
  let req' := {| r_Version := r_Version req; r_Method := r_Method req;
                 r_ID := r_ID req; r_Params := r_Params req;
                 r_ctx := Some (WithTimeout ctx t0 (timeout m)) |} in
  timeout m = timeout m' ->
  methods m !! r_Method req = Some method ->
  methods m' !! r_Method req = Some method' ->
  method req' = method' req' ->
  execMethod m ctx (Some req) t0 = execMethod m' ctx (Some req) t0
  /\ exists d, done_at (Request_Context req') = Some d
       /\ d <= t0 + timeout m
       /\ forall p, done_at ctx = Some p -> d <= p.
Proof.
  intros req' Ht Hm Hm' Hreq. split.
  - unfold execMethod. simpl.
    destruct (String.eqb (r_Version req) version); simpl; [| reflexivity].
    destruct (String.eqb (r_Method req) ""); simpl; [reflexivity |].
    match goal with
    | |- match ?x with Some _ => _ | None => _ end =
         match ?y with Some _ => _ | None => _ end =>
        replace x with (Some method) by (symmetry; exact Hm);
        replace y with (Some method') by (symmetry; exact Hm')
    end.
    rewrite <- Ht. fold req'. rewrite <- Hreq. reflexivity.
  - pose proof (deadline_le ctx t0 (timeout m)) as [Hd Hp].
    exists (deadline ctx t0 (timeout m)). split; [reflexivity |]. split; assumption.
Qed.

(** X9.  With a timeout that is zero or negative, or a caller's context
    that is already done, the deadline can be taken as soon as the handler
    is started: a registered handler that has not returned at that very
    instant is answered for with ExecutionTimeout, and [execMethod] returns
    at the instant it was called. *)
Theorem execMethod_expires_at_once (m : Manager) (ctx : Ctx) (req : Request)
    (t0 : Time) (method : Method) (c : call) :
  let req' := {| r_Version := r_Version req; r_Method := r_Method req;
                 r_ID := r_ID req; r_Params := r_Params req;
                 r_ctx := Some (WithTimeout ctx t0 (timeout m)) |} in
  timeout m <= 0 \/ (exists p, done_at ctx = Some p /\ p <= t0) ->
  r_Version req = version -> r_Method req <> "" ->
  methods m !! r_Method req = Some method ->
  (timeline t0 (method req')).2 <> Some t0 ->
  execMethod m ctx (Some req) t0 = Ret c ->
  res_Error (c_res c) = Some (newError errCodeExecutionTimeout Nil)
  /\ c_end c = t0
  /\ c_log c = [Lookup (r_Method req); Spawn (r_Method req); Expired (r_Method req)].
Proof.
  intros req' Hearly Hv Hname Hm Hfin.
  assert (Hfires : Z.max t0 (deadline ctx t0 (timeout m)) = t0).
  { pose proof (deadline_le ctx t0 (timeout m)) as [Hd Hp].
    destruct Hearly as [? | (p & Hdone & ?)]; [lia |].
    specialize (Hp p Hdone). lia. }
  unfold execMethod. simpl.
  destruct (String.eqb_spec (r_Version req) version) as [_ | ?]; [| contradiction].
  destruct (String.eqb_spec (r_Method req) "") as [? | _]; [contradiction |]. simpl.
  match goal with
  | |- context [match ?x with Some _ => _ | None => _ end] =>
      replace x with (Some method) by (symmetry; exact Hm)
  end.
  fold req'. destruct (timeline t0 (method req')) as [ws fin] eqn:Htl.
  rewrite Hfires. simpl in Hfin.
  assert (Hnot : finished_by t0 fin = false).
  { destruct fin as [f |]; [| reflexivity]. simpl. unfold before.
    apply timeline_ge in Htl as [Hge _]. specialize (Hge f eq_refl).
    assert (f <> t0) by congruence.
    replace (f <? t0) with false by (symmetry; apply Z.ltb_ge; lia).
    replace (f =? t0) with false by (symmetry; apply Z.eqb_neq; lia).
    destruct handler_first; reflexivity. }
  rewrite Hnot. intros [= <-]. simpl. repeat split.
Qed.

End MoreCalls.

(** ** The manager file: [Handle] *)

Section MoreHandle.
Context {dec : JSONDecoder} {sched : Scheduler}.

(** The decoder fails with ParseError on an empty stream and with
    InvalidRequest otherwise. *)
Lemma parseMethodRequest_error_code (r : Reader) (e : Error) :
  parseMethodRequest r = inl e ->
  e = newError (Code e) (Data e)
  /\ (Code e = errCodeParseError \/ Code e = errCodeInvalidRequest).
Proof.
  destruct r as [s e0]. unfold parseMethodRequest, ReadRune, UnreadRune. simpl.
  destruct s as [| c s]; simpl.
  - intros [= <-]. split; [reflexivity | left; reflexivity].
  - destruct (DecodeRune (String c s)) as [f bytes]. simpl.
    destruct (negb (f =? byte "[")).
    + destruct (Decode_Request _); [| discriminate].
      intros [= <-]. split; [reflexivity | right; reflexivity].
    + destruct (Decode_Requests _); [| discriminate].
      intros [= <-]. split; [reflexivity | right; reflexivity].
Qed.

(** The two ways [Handle] returns: with one of its own errors before any
    call, or after the loop with what the encoder did. *)
Lemma Handle_cases (m : Manager) (ctx : option Ctx) (r : option Reader)
    (w : option Writer) (t0 : Time) (h : handled) :
  Handle m ctx r w t0 = Ret h ->
  (exists e, h = failed e /\ e = newError (Code e) (Data e)
     /\ Code e ∈ [ErrCodeInternal; errCodeParseError; errCodeInvalidRequest])
  \/ (exists r' w' rq all,
        r = Some r' /\ w = Some w' /\ parseMethodRequest r' = inr rq /\ rq <> []
        /\ run_calls m (default Background ctx) rq t0 = Ret all
        /\ h = {| h_out := (emit w' ((fun p => encodeResponse (settle (end_of t0 all) p.2))
                                      <$> List.filter retained all)).1;
                  h_err := IOError <$>
                           (emit w' ((fun p => encodeResponse (settle (end_of t0 all) p.2))
                                       <$> List.filter retained all)).2;
                  h_log := logs all |}).
Proof.
  intros Hh. destruct r as [r' |]; [destruct w as [w' |] |].
  - destruct (parseMethodRequest r') as [e | rq] eqn:Hparse.
    + left. unfold Handle in Hh. rewrite Hparse in Hh. injection Hh as <-.
      apply parseMethodRequest_error_code in Hparse as [He Hcode].
      exists e. split; [reflexivity |]. split; [exact He |].
      destruct Hcode as [-> | ->]; set_solver.
    + destruct rq as [| r0 rq'] eqn:Hrq.
      * left. unfold Handle in Hh. rewrite Hparse in Hh. injection Hh as <-.
        eexists. split; [reflexivity |]. split; [reflexivity |]. set_solver.
      * rewrite <- Hrq in *. assert (Hne : rq <> []) by (rewrite Hrq; discriminate).
        right. destruct (run_calls m (default Background ctx) rq t0) as [all | msg] eqn:Hall.
        -- rewrite (Handle_output m ctx r' w' t0 rq all Hparse Hne Hall) in Hh.
           injection Hh as <-. exists r', w', rq, all. repeat split; assumption.
        -- rewrite (Handle_panics m ctx r' w' t0 rq msg Hparse Hne Hall) in Hh.
           discriminate.
  - left. injection Hh as <-. eexists. split; [reflexivity |].
    split; [reflexivity |]. set_solver.
  - left. injection Hh as <-. eexists. split; [reflexivity |].
    split; [reflexivity |]. set_solver.
Qed.

Lemma emit_shape (w : Writer) (docs : list json) :
  ((emit w docs).1 = [] /\ (emit w docs).2 = match docs with [] => None | _ => w_fail w end)
  \/ ((emit w docs).2 = None /\ w_fail w = None
      /\ exists doc, (emit w docs).1 = [doc]
           /\ (docs = [doc] \/ (doc = JArr docs /\ (2 <= length docs)%nat))).
Proof.
  unfold emit, Encode.
  destruct docs as [| d1 [| d2 docs]]; destruct (w_fail w) eqn:Hw; simpl; auto.
  - right. repeat split. eexists. split; [reflexivity |]. auto.
  - right. repeat split. eexists. split; [reflexivity |]. right. split; [reflexivity | lia].
Qed.

(** X10.  When [Handle] returns one of the package's own errors, it has
    written nothing and started no handler, and the error is InternalError,
    ParseError or InvalidRequest with the text of the catalogue. *)
Theorem Handle_own_error_writes_nothing (m : Manager) (ctx : option Ctx)
    (r : option Reader) (w : option Writer) (t0 : Time) (h : handled) (e : Error) :
  Handle m ctx r w t0 = Ret h ->
  h_err h = Some (RPCError e) ->
  h_out h = [] /\ h_log h = []
  /\ Code e ∈ [ErrCodeInternal; errCodeParseError; errCodeInvalidRequest]
  /\ e = newError (Code e) (Data e).
Proof.
  intros Hh Herr. apply Handle_cases in Hh as [(e' & -> & He & Hcode) | Hrun].
  - injection Herr as <-. auto.
  - destruct Hrun as (r' & w' & rq & all & _ & _ & _ & _ & _ & ->).
    simpl in Herr. destruct (emit w' _).2; discriminate.
Qed.

Lemma Handle_writes_shape (m : Manager) (ctx : option Ctx)
    (r : option Reader) (w : option Writer) (t0 : Time) (h : handled) :
  Handle m ctx r w t0 = Ret h ->
  h_out h = []
  \/ (h_err h = None
      /\ exists doc, h_out h = [doc]
           /\ ((exists fields, doc = JObj fields)
               \/ (exists docs, doc = JArr docs /\ (2 <= length docs)%nat))).
Proof.
  intros Hh. apply Handle_cases in Hh as [(e' & -> & _) | Hrun]; [left; reflexivity |].
  destruct Hrun as (r' & w' & rq & all & _ & _ & _ & _ & _ & ->). cbn [h_out h_err].
  destruct (emit_shape w' ((fun p => encodeResponse (settle (end_of t0 all) p.2))
                             <$> List.filter retained all))
    as [[Hout _] | (Herr & _ & doc & Hout & Hdoc)]; [left; exact Hout |].
  right. rewrite Herr, Hout. split; [reflexivity |].
  exists doc. split; [reflexivity |].
  destruct Hdoc as [Hone | [-> Hlen]]; [| right; eauto].
  left. destruct (List.filter retained all) as [| p ?]; [discriminate |].
  injection Hone as <- _. eexists. reflexivity.
Qed.

(** X11.  A call of [Handle] writes at most one document, an object for
    one response or an array of two or more, and it writes none when it
    returns an error of any kind. *)
Theorem Handle_writes_at_most_one_document (m : Manager) (ctx : option Ctx)
    (r : option Reader) (w : option Writer) (t0 : Time) (h : handled) :
  Handle m ctx r w t0 = Ret h ->
  (length (h_out h) <= 1)%nat
  /\ (is_Some (h_err h) -> h_out h = [])
  /\ (forall doc, doc ∈ h_out h ->
        (exists fields, doc = JObj fields)
        \/ (exists docs, doc = JArr docs /\ (2 <= length docs)%nat)).
Proof.
  intros Hh. apply Handle_writes_shape in Hh as [Hout | (Herr & doc & Hout & Hdoc)].
  - rewrite Hout. split; [simpl; lia |]. split; [reflexivity |].
    intros doc Hin. inversion Hin.
  - rewrite Hout, Herr. split; [simpl; lia |].
    split; [intros [? ?]; discriminate |].
    intros doc' Hin. apply list_elem_of_singleton in Hin as ->. exact Hdoc.
Qed.

Lemma execMethod_unhandled (m : Manager) (ctx : Ctx) (req : Request) (t : Time) :
  unhandled m req ->
  exists c, execMethod m ctx (Some req) t = Ret c
    /\ is_Some (res_Error (c_res c)) /\ c_pending c = []
    /\ (forall name, Spawn name ∉ c_log c).
Proof.
  intros Hun. exec_cases req;
    try (exfalso; destruct Hun as [Hv | [Hm | Hm]]; [contradiction | contradiction |];
         match goal with
         | H : _ = Some _ |- _ => discriminate (eq_trans (eq_sym H) Hm)
         end);
    (eexists; split; [reflexivity |]; cbn;
     split; [eexists; reflexivity |]; split; [reflexivity |];
     intros name Hin;
     repeat (apply elem_of_cons in Hin as [Hin | Hin]; [discriminate |]);
     inversion Hin).
Qed.

Lemma run_calls_unhandled (m : Manager) (ctx : Ctx) (rq : list (option Request)) :
  Forall (fun r => exists req, r = Some req /\ unhandled m req) rq ->
  forall t, exists all,
    run_calls m ctx rq t = Ret all
    /\ Forall (fun p => is_Some (res_Error (c_res p.2)) /\ c_pending p.2 = []
                        /\ (forall name, Spawn name ∉ c_log p.2)) all.
Proof.
  induction 1 as [| r rq (req & -> & Hun) _ IH]; intros t; simpl.
  - exists []. split; [reflexivity | constructor].
  - destruct (execMethod_unhandled m ctx req t Hun) as (c & Hc & Hprops).
    rewrite Hc. simpl. destruct (IH (c_end c)) as (rest & -> & Hrest). simpl.
    eexists. split; [reflexivity |]. constructor; assumption.
Qed.

Lemma filter_all {A} (f : A -> bool) (l : list A) :
  Forall (fun x => f x = true) l -> List.filter f l = l.
Proof.
  induction 1 as [| x l Hx _ IH]; simpl; [reflexivity |]. rewrite Hx, IH. reflexivity.
Qed.

Lemma logs_no_spawn (all : list (Request * call)) :
  Forall (fun p => forall name, Spawn name ∉ c_log p.2) all ->
  forall name, Spawn name ∉ logs all.
Proof.
  unfold logs. induction 1 as [| p all Hp _ IH]; intros name; simpl.
  - intros Hin. inversion Hin.
  - intros Hin. apply elem_of_app in Hin as [Hin | Hin];
      [exact (Hp name Hin) | exact (IH name Hin)].
Qed.

(** A batch that is not empty and reaches no handler, with a writer that
    takes its input: [Handle] returns nil after writing one document, which
    holds one error response for each request. *)
Lemma Handle_unhandled (m : Manager) (ctx : option Ctx) (r : Reader) (w : Writer)
    (t0 : Time) (rq : list (option Request)) :
  parseMethodRequest r = inr rq -> rq <> [] ->
  Forall (fun r => exists req, r = Some req /\ unhandled m req) rq ->
  w_fail w = None ->
  exists doc rs log,
    Handle m ctx (Some r) (Some w) t0 = Ret {| h_out := [doc]; h_err := None; h_log := log |}
    /\ responses_of [doc] = encodeResponse <$> rs
    /\ length rs = length rq
    /\ Forall (fun res => is_Some (res_Error res)) rs
    /\ (forall name, Spawn name ∉ log).
Proof.
  intros Hparse Hne Hun Hw.
  destruct (run_calls_unhandled m (default Background ctx) rq Hun t0) as (all & Hall & Hprops).
  rewrite (Handle_output m ctx r w t0 rq all Hparse Hne Hall).
  assert (Hkeep : List.filter retained all = all).
  { apply filter_all. eapply Forall_impl; [exact Hprops |].
    intros p (He & _). unfold retained. rewrite (bool_decide_eq_true_2 _ He).
    apply orb_true_r. }
  rewrite Hkeep, (encode_settled (end_of t0 all) all).
  assert (Hlen : length ((fun p => settle (end_of t0 all) p.2) <$> all) = length rq).
  { rewrite (run_calls_requests m _ rq t0 all Hall), !length_fmap. reflexivity. }
  assert (Herr : Forall (fun res => is_Some (res_Error res))
                   ((fun p => settle (end_of t0 all) p.2) <$> all)).
  { apply Forall_fmap. eapply Forall_impl; [exact Hprops |].
    intros p (He & Hp & _). cbn. unfold settle. rewrite Hp. exact He. }
  assert (Hlog : forall name, Spawn name ∉ logs all).
  { apply logs_no_spawn. eapply Forall_impl; [exact Hprops |]. intros p (_ & _ & Hs). exact Hs. }
  pose proof (responses_of_emit w ((fun p => settle (end_of t0 all) p.2) <$> all) Hw) as Hresp.
  revert Hlen Herr Hresp.
  generalize ((fun p => settle (end_of t0 all) p.2) <$> all). intros rs Hlen Herr Hresp.
  destruct rs as [| r1 [| r2 rs]].
  - destruct rq; [contradiction | discriminate].
  - exists (encodeResponse r1), [r1], (logs all).
    unfold emit, Encode in *. rewrite Hw in *. cbn [fmap list_fmap fst snd option_fmap option_map] in *.
    repeat split; assumption.
  - exists (JArr (encodeResponse <$> (r1 :: r2 :: rs))), (r1 :: r2 :: rs), (logs all).
    unfold emit, Encode in *. rewrite Hw in *. cbn [fmap list_fmap fst snd option_fmap option_map] in *.
    repeat split; assumption.
Qed.

(** X12.  Once the input has decoded to a batch that is not empty and has
    no nil request, [Handle] returns after every request of the batch has
    been given to [execMethod], and what the calls run into (a wrong
    version, an unknown method, a deadline, an error of a handler) is never
    its returned error: that error is none of the package's.  When no
    request of the batch reaches a handler, no handler is started and the
    returned error is nil or the writer's own. *)
Theorem Handle_never_returns_call_errors (m : Manager) (ctx : option Ctx)
    (r : Reader) (w : Writer) (t0 : Time) (rq : list (option Request)) :
  parseMethodRequest r = inr rq -> rq <> [] -> Forall is_Some rq ->
  exists all h,
    run_calls m (default Background ctx) rq t0 = Ret all
    /\ Handle m ctx (Some r) (Some w) t0 = Ret h
    /\ length all = length rq
    /\ h_log h = logs all
    /\ (forall e, h_err h <> Some (RPCError e))
    /\ (Forall (fun r => exists req, r = Some req /\ unhandled m req) rq ->
          (forall name, Spawn name ∉ h_log h)
          /\ (w_fail w = None -> h_err h = None)
          /\ (forall e, h_err h = Some (IOError e) -> w_fail w = Some e)).
Proof.
  intros Hparse Hne Hsome.
  destruct (run_calls_returns m (default Background ctx) rq Hsome t0) as [all Hall].
  exists all. rewrite (Handle_output m ctx r w t0 rq all Hparse Hne Hall).
  eexists. split; [exact Hall |]. split; [reflexivity |]. cbn [h_err h_log].
  split.
  { rewrite (run_calls_requests m _ rq t0 all Hall), !length_fmap. reflexivity. }
  split; [reflexivity |].
  split.
  { intros e. destruct (emit w _).2; discriminate. }
  intros Hun.
  destruct (run_calls_unhandled m (default Background ctx) rq Hun t0) as (all' & Hall' & Hprops).
  rewrite Hall in Hall'. injection Hall' as <-.
  split.
  { apply logs_no_spawn. eapply Forall_impl; [exact Hprops |]. intros p (_ & _ & Hs). exact Hs. }
  unfold emit, Encode.
  destruct (_ <$> List.filter retained all) as [| d1 [| d2 docs]];
    destruct (w_fail w); simpl; repeat split; try discriminate; congruence.
Qed.

(** X13.  When every request of the batch carries an identifier, the sink
    receives one response per request, in the order of the requests, the
    i-th with the identifier and the version string of the i-th request. *)
Theorem Handle_answers_in_order (m : Manager) (ctx : option Ctx) (r : Reader)
    (w : Writer) (t0 : Time) (rq : list (option Request)) :
  parseMethodRequest r = inr rq -> rq <> [] ->
  Forall (fun r => exists req, r = Some req /\ is_Some (r_ID req)) rq ->
  w_fail w = None ->
  exists h,
    Handle m ctx (Some r) (Some w) t0 = Ret h
    /\ member "id" <$> responses_of (h_out h) = (fun r => JRaw <$> (r ≫= r_ID)) <$> rq
    /\ member "jsonrpc" <$> responses_of (h_out h) = (fun r => JStr <$> (r_Version <$> r)) <$> rq.
Proof.
  intros Hparse Hne Hids Hw.
  assert (Hsome : Forall is_Some rq).
  { eapply Forall_impl; [exact Hids |]. intros ? (req & -> & _). eauto. }
  destruct (run_calls_returns m (default Background ctx) rq Hsome t0) as [all Hall].
  rewrite (Handle_output m ctx r w t0 rq all Hparse Hne Hall).
  eexists. split; [reflexivity |]. cbn [h_out].
  pose proof (run_calls_requests m _ rq t0 all Hall) as Hrq.
  assert (Hkeep : List.filter retained all = all).
  { assert (Hall_ids : Forall (fun p => is_Some (r_ID p.1)) all).
    { rewrite Hrq in Hids. rewrite Forall_fmap, Forall_fmap in Hids.
      eapply Forall_impl; [exact Hids |]. intros [req c] (req' & [= <-] & Hid). exact Hid. }
    clear -Hall_ids. induction Hall_ids as [| p l Hp _ IH]; [reflexivity |].
    simpl. unfold retained at 1. rewrite (bool_decide_eq_true_2 _ Hp). simpl.
    f_equal. exact IH. }
  rewrite Hkeep, (encode_settled (end_of t0 all) all), responses_of_emit by exact Hw.
  rewrite Hrq, <- !list_fmap_compose.
  split; apply list_fmap_ext; intros i [req c] Hi; unfold compose; cbn [fst snd mbind option_bind fmap option_fmap option_map];
    apply list_elem_of_lookup_2 in Hi;
    destruct (run_calls_elem m _ rq t0 all req c Hall Hi) as [t' Hc];
    destruct (execMethod_echo m _ req t' c Hc (end_of t0 all)) as [Hv Hid].
  - rewrite member_id, Hid.
    assert (His : is_Some (r_ID req)).
    { rewrite Hrq in Hids. rewrite Forall_fmap, Forall_fmap in Hids.
      rewrite Forall_forall in Hids. destruct (Hids (req, c) Hi) as (req' & [= <-] & H).
      exact H. }
    destruct His as [raw ->]. reflexivity.
  - rewrite member_jsonrpc, Hv. reflexivity.
Qed.

(** X14.  The sink never receives more responses than the batch has
    requests. *)
Theorem Handle_no_more_responses_than_requests (m : Manager) (ctx : option Ctx)
    (r : Reader) (w : Writer) (t0 : Time) (rq : list (option Request)) (h : handled) :
  parseMethodRequest r = inr rq ->
  Handle m ctx (Some r) (Some w) t0 = Ret h ->
  (length (responses_of (h_out h)) <= length rq)%nat.
Proof.
  intros Hparse Hh.
  apply Handle_cases in Hh as [(e' & -> & _) | Hrun]; [simpl; lia |].
  destruct Hrun as (r' & w' & rq' & all & [= <-] & [= <-] & Hparse' & _ & Hall & ->).
  rewrite Hparse in Hparse'. injection Hparse' as <-. cbn [h_out].
  rewrite (run_calls_requests m _ rq t0 all Hall), !length_fmap.
  rewrite (encode_settled (end_of t0 all) (List.filter retained all)).
  destruct (w_fail w) as [e |] eqn:Hw.
  - unfold emit, Encode. rewrite Hw.
    destruct (_ <$> _) as [| ? [| ? ?]]; simpl; lia.
  - rewrite responses_of_emit by exact Hw. rewrite !length_fmap.
    pose proof (filter_sublist retained all) as Hsub.
    apply sublist_length in Hsub. exact Hsub.
Qed.

(** X15.  A batch of notifications whose calls all end without an error
    is handled in silence: nothing is written, not even attempted on a
    writer that would fail, and [Handle] returns nil. *)
Theorem Handle_silent_batch (m : Manager) (ctx : option Ctx) (r : Reader)
    (w : Writer) (t0 : Time) (rq : list (option Request)) (all : list (Request * call)) :
  parseMethodRequest r = inr rq -> rq <> [] ->
  run_calls m (default Background ctx) rq t0 = Ret all ->
  Forall (fun p => r_ID p.1 = None /\ res_Error (c_res p.2) = None) all ->
  Handle m ctx (Some r) (Some w) t0 =
    Ret {| h_out := []; h_err := None; h_log := logs all |}.
Proof.
  intros Hparse Hne Hall Hsilent.
  rewrite (Handle_output m ctx r w t0 rq all Hparse Hne Hall).
  assert (Hnone : List.filter retained all = []).
  { clear -Hsilent. induction Hsilent as [| p l [Hid Herr] _ IH]; [reflexivity |].
    simpl. unfold retained at 1. rewrite Hid, Herr. simpl. exact IH. }
  rewrite Hnone. reflexivity.
Qed.

End MoreHandle.

(** ** The manager file: the builder *)

(** X16.  The calls on a builder can be made in any order: setting the
    timeout before or after a registration gives the same builder, as do
    two registrations under different names in either order (with the same
    panic when one of them is invalid), and of two timeouts the last one
    set is the one the manager gets. *)
Theorem builder_order_irrelevant :
  (forall t name h mb,
     Add name h (SetTimeout t mb) = (mb' ← Add name h mb; mret (SetTimeout t mb')))
  /\ (forall n1 n2 h1 h2 mb, n1 <> n2 ->
        (mb1 ← Add n1 h1 mb; Add n2 h2 mb1) = (mb2 ← Add n2 h2 mb; Add n1 h1 mb2))
  /\ (forall t1 t2 mb, timeout (Build (SetTimeout t2 (SetTimeout t1 mb))) = t2).
Proof.
  split; [| split].
  - intros t name h mb. unfold Add.
    destruct (String.eqb name ""), h; reflexivity.
  - intros n1 n2 h1 h2 mb Hne. unfold Add.
    destruct (String.eqb n1 ""), h1, (String.eqb n2 ""), h2; simpl; try reflexivity.
    do 2 f_equal. apply insert_insert_ne. congruence.
  - reflexivity.
Qed.

Section BuiltManager.
Context {sched : Scheduler}.

(** X17.  What is registered is what is dispatched.  A manager built from
    a fresh builder has a timeout of ten seconds and answers every named
    request of the supported version with MethodNotFound; after a
    registration, a request for that name starts a handler, and a request
    for another name is treated as before the registration. *)
Theorem Build_dispatches_registered (name : string) (h : Method)
    (mb mb' : ManagerBuilder) (ctx : Ctx) (req : Request) (t0 : Time) :
  Add name (Some h) mb = Ret mb' ->
  r_Version req = version -> r_Method req <> "" ->
  timeout (Build NewManagerBuilder) = 10000000000
  /\ (exists c, execMethod (Build NewManagerBuilder) ctx (Some req) t0 = Ret c
        /\ c_log c = [Lookup (r_Method req)]
        /\ Code <$> res_Error (c_res c) = Some errCodeMethodNotFound)
  /\ (r_Method req = name ->
        exists c, execMethod (Build mb') ctx (Some req) t0 = Ret c
          /\ Spawn name ∈ c_log c)
  /\ (r_Method req <> name ->
        execMethod (Build mb') ctx (Some req) t0 = execMethod (Build mb) ctx (Some req) t0).
Proof.
  intros Hadd Hv Hname. unfold Add in Hadd.
  destruct (String.eqb_spec name "") as [? | Hn]; [discriminate |].
  injection Hadd as <-.
  split; [reflexivity |]. split; [| split].
  - unfold execMethod. simpl.
    destruct (String.eqb_spec (r_Version req) version); [| contradiction].
    destruct (String.eqb_spec (r_Method req) ""); [contradiction |]. simpl.
    eexists. split; [reflexivity |]. split; reflexivity.
  - intros Hm. destruct (execMethod_returns (Build (mkBuilder (mb_timeout mb)
                            (<[name := h]> (mb_methods mb)))) ctx req t0) as [c Hc].
    exists c. split; [exact Hc |]. revert Hc. unfold execMethod. simpl.
    destruct (String.eqb_spec (r_Version req) version); [| contradiction].
    destruct (String.eqb_spec (r_Method req) ""); [contradiction |]. simpl.
    rewrite Hm.
    match goal with
    | |- context [match ?x with Some _ => _ | None => _ end] =>
        replace x with (Some h) by (symmetry; apply lookup_insert_eq)
    end.
    destruct (timeline _ _) as [ws fin]. destruct (finished_by _ _);
      intros [= <-]; simpl; set_solver.
  - intros Hm. unfold execMethod. simpl.
    destruct (String.eqb (r_Version req) version); [| reflexivity]. simpl.
    destruct (String.eqb (r_Method req) ""); [reflexivity |]. simpl.
    match goal with
    | |- match ?x with Some _ => _ | None => _ end =
         match ?y with Some _ => _ | None => _ end =>
        replace x with y by (symmetry; apply lookup_insert_ne; congruence)
    end.
    reflexivity.
Qed.

End BuiltManager.

(** ** The HTTP adapter *)

#[local] Arguments Handle : simpl never.

Section HTTP.
Context {dec : JSONDecoder} {sched : Scheduler}.

(** X18.  The answers of the HTTP function.  A request whose content type
    does not start with "application/json" gets 415, one that passes and
    announces an empty body gets 204, and in both cases the body is not
    read, no handler is started and no header is added.  Any other request
    is handed to [Handle] with the content type header added first: the
    answer is then nothing at all, or one document and no call of
    [WriteHeader], or the status 500 followed by the text of the error
    [Handle] returned if the connection takes it.  [WriteHeader] is never
    called after something was written. *)
Theorem HTTPHandleFunc_answers (m : Manager) (w : ResponseWriter) (r : http_Request)
    (t0 : Time) (s : served) :
  HTTPHandleFunc m w r t0 = Ret s ->
  exists steps,
    rw_steps (s_writer s) = rw_steps w ++ steps
    /\ ((String.prefix contentTypeValue (Header_Get (hr_Header r) contentTypeKey) = false
         /\ steps = [WriteHeader 415]
         /\ s_log s = [] /\ s_closed s = false /\ rw_Header (s_writer s) = rw_Header w)
        \/ (String.prefix contentTypeValue (Header_Get (hr_Header r) contentTypeKey) = true
            /\ hr_ContentLength r = 0
            /\ steps = [WriteHeader 204]
            /\ s_log s = [] /\ s_closed s = false /\ rw_Header (s_writer s) = rw_Header w)
        \/ (String.prefix contentTypeValue (Header_Get (hr_Header r) contentTypeKey) = true
            /\ hr_ContentLength r <> 0
            /\ s_closed s = true
            /\ rw_Header (s_writer s) =
                 Header_Add contentTypeKey contentTypeValue (rw_Header w)
            /\ (steps = []
                \/ (exists doc, steps = [WriteDoc doc])
                \/ (exists e, steps = [WriteHeader 500]
                              \/ steps = [WriteHeader 500; WriteError e])))).
Proof.
  unfold HTTPHandleFunc, mret, outcome_ret.
  destruct (String.prefix _ _) eqn:Hct; simpl.
  2: { intros [= <-]. eexists. split; [reflexivity |]. left. repeat split. }
  destruct (Z.eqb_spec (hr_ContentLength r) 0) as [Hcl | Hcl].
  { intros [= <-]. eexists. split; [reflexivity |]. right. left. repeat split.
    exact Hcl. }
  cbv zeta. cbn [rw_conn].
  destruct (Handle m (Some (hr_ctx r)) (Some (hr_Body r)) (Some (rw_conn w)) t0)
    as [h |] eqn:Hh; simpl; [| discriminate].
  pose proof (Handle_writes_shape m (Some (hr_ctx r)) (Some (hr_Body r))
                (Some (rw_conn w)) t0 h Hh) as Hshape.
  destruct (h_err h) as [e |] eqn:Herr.
  - destruct Hshape as [Hout | (Hnone & _)]; [| congruence].
    rewrite Hout. simpl.
    destruct (w_fail (rw_conn w)); intros [= <-]; simpl; rewrite app_nil_r;
      (eexists; split; [rewrite <- ?app_assoc; reflexivity |]);
      right; right; repeat split; try assumption; right; right; exists e; auto.
  - intros [= <-]. simpl. eexists. split; [reflexivity |].
    right. right. repeat split; try assumption.
    destruct Hshape as [-> | (_ & doc & -> & _)]; [left; reflexivity |].
    right. left. exists doc. reflexivity.
Qed.

(** X19.  What [execMethod] rejects on its own is not an HTTP error.  When
    the body decodes to a batch that is not empty and of which no request
    reaches a handler, and the connection takes what is written,
    [WriteHeader] is not called at all: the answer is one document, with
    one error response for each request, and no handler is started. *)
Theorem HTTPHandleFunc_rejections_are_documents (m : Manager)
    (w : ResponseWriter) (r : http_Request) (t0 : Time) (rq : list (option Request)) :
  String.prefix contentTypeValue (Header_Get (hr_Header r) contentTypeKey) = true ->
  hr_ContentLength r <> 0 ->
  parseMethodRequest (hr_Body r) = inr rq -> rq <> [] ->
  Forall (fun r => exists req, r = Some req /\ unhandled m req) rq ->
  w_fail (rw_conn w) = None ->
  exists s doc,
    HTTPHandleFunc m w r t0 = Ret s
    /\ rw_steps (s_writer s) = rw_steps w ++ [WriteDoc doc]
    /\ length (responses_of [doc]) = length rq
    /\ (forall d, d ∈ responses_of [doc] -> is_Some (member "error" d))
    /\ (forall name, Spawn name ∉ s_log s).
Proof.
  intros Hct Hcl Hparse Hne Hun Hw. unfold HTTPHandleFunc, mret, outcome_ret.
  rewrite Hct. simpl.
  destruct (Z.eqb_spec (hr_ContentLength r) 0) as [? | _]; [contradiction |].
  destruct (Handle_unhandled m (Some (hr_ctx r)) (hr_Body r) (rw_conn w) t0 rq
              Hparse Hne Hun Hw) as (doc & rs & log & -> & Hresp & Hlen & Herr & Hlog).
  simpl. eexists _, doc. split; [reflexivity |]. simpl.
  split; [reflexivity |]. rewrite Hresp, length_fmap.
  split; [exact Hlen |]. split; [| exact Hlog].
  intros d Hin. apply list_elem_of_fmap in Hin as (res & -> & Hin).
  rewrite member_error. apply fmap_is_Some.
  rewrite Forall_forall in Herr. exact (Herr res Hin).
Qed.

(** X20.  A body that does not decode, or decodes to an empty batch, is
    an HTTP error: the status 500 is the first thing sent, followed by the
    text of the error if the connection takes it; no JSON-RPC response is
    written and no handler is started. *)
Theorem HTTPHandleFunc_undecodable_body (m : Manager) (w : ResponseWriter)
    (r : http_Request) (t0 : Time) (e : Error) :
  String.prefix contentTypeValue (Header_Get (hr_Header r) contentTypeKey) = true ->
  hr_ContentLength r <> 0 ->
  parseMethodRequest (hr_Body r) = inl e
  \/ (parseMethodRequest (hr_Body r) = inr []
      /\ e = newError errCodeInvalidRequest (str "no methods specified")) ->
  exists s,
    HTTPHandleFunc m w r t0 = Ret s
    /\ rw_steps (s_writer s) =
         rw_steps w ++ WriteHeader 500
           :: match w_fail (rw_conn w) with
              | None => [WriteError (RPCError e)]
              | Some _ => []
              end
    /\ s_log s = [].
Proof.
  intros Hct Hcl Hparse. unfold HTTPHandleFunc, mret, outcome_ret. rewrite Hct. simpl.
  destruct (Z.eqb_spec (hr_ContentLength r) 0) as [? | _]; [contradiction |].
  assert (Hh : Handle m (Some (hr_ctx r)) (Some (hr_Body r)) (Some (rw_conn w)) t0
               = Ret (failed e)).
  { unfold Handle. destruct Hparse as [-> | [-> ->]]; reflexivity. }
  cbv zeta. cbn [rw_conn]. rewrite Hh. simpl.
  destruct (w_fail (rw_conn w)); eexists; (split; [reflexivity |]); simpl;
    rewrite ?app_nil_r, <- ?app_assoc; split; reflexivity.
Qed.

End HTTP.

(** ** jrpc2go.go: [ParseParams] without parameters *)

(** X21.  [ParseParams] does not reach the decoder when [v] is nil or the
    request has no params: it returns InvalidParams with a text as data and
    leaves request and target as they were, whatever the decoder is and
    whatever [v] holds.  The test of [v] comes before the first use of the
    receiver, so a nil request with a nil [v] is answered in the same way,
    while a nil request with a target panics. *)
Theorem ParseParams_without_decoding {T : Type} (um1 um2 : Unmarshaler T)
    (ur1 ur2 : Unmarshaler Request) (cv1 cv2 : JSONSyntax)
    (r : option Request) (v : target T) :
  (v = NilInterface \/ (exists req, r = Some req /\ r_Params req = None) ->
     exists e text,
       ParseParams (um := um1) (ur := ur1) (cv := cv1) r v = Ret (r, v, Some e)
       /\ ParseParams (um := um2) (ur := ur2) (cv := cv2) r v = Ret (r, v, Some e)
       /\ e = newError errCodeInvalidParams (str text))
  /\ (r = None -> v <> NilInterface ->
        exists msg, ParseParams (um := um1) (ur := ur1) (cv := cv1) r v = Panic msg).
Proof.
  split.
  - intros [-> | (req & -> & Hp)].
    + eexists _, _. repeat split.
    + destruct v; simpl; rewrite ?Hp; eexists _, _; repeat split.
  - intros -> Hv. destruct v; try congruence; eexists; reflexivity.
Qed.

(** ** The further properties at concrete inputs *)

Section MoreWitnesses.
Import Go_json Handlers Inputs.
#[local] Existing Instance Go_json.decoder.
#[local] Existing Instance Handlers.handler_wins.

Lemma newError_message_identifies_code_witness :
  Message (newError errCodeParseError Nil) <> ""
  /\ (Message (newError 7 Nil) <> "" -> False).
Proof.
  split.
  - apply (proj1 newError_message_identifies_code errCodeParseError Nil). set_solver.
  - intros H. apply (proj1 newError_message_identifies_code 7 Nil) in H.
    repeat (apply elem_of_cons in H as [H | H]; [discriminate |]). inversion H.
Defined.

Lemma WithContext_Context_witness :
  exists r2, WithContext noop_call (Some (mkCtx (Some 5))) = Ret r2
    /\ Request_Context r2 = mkCtx (Some 5)
    /\ r_ID r2 = Some "1".
Proof.
  destruct (proj1 (proj2 (WithContext_Context noop_call (Some (mkCtx (Some 5)))))
              (mkCtx (Some 5)) eq_refl)
    as (r2 & Hr & Hc & _ & _ & Hid & _).
  exists r2. split; [exact Hr |]. split; [exact Hc | exact Hid].
Defined.

Lemma execMethod_method_not_found_witness :
  r_Version unknown_call = version
  /\ methods registry !! r_Method unknown_call = None
  /\ execMethod registry Background (Some unknown_call) 0 =
       Ret {| c_res := {| res_Version := "2.0"; res_ID := Some "3"; res_Result := Nil;
                          res_Error := Some {| Code := -32601; Message := "Method not found";
                                               Data := Val (JStr "no-method") |} |};
              c_pending := []; c_end := 0; c_log := [Lookup "no-method"] |}.
Proof.
  assert (Hm : methods registry !! r_Method unknown_call = None)
    by (vm_compute; reflexivity).
  split; [reflexivity |]. split; [exact Hm |].
  apply (execMethod_method_not_found registry Background unknown_call 0 eq_refl
           (or_intror Hm)).
Defined.

Lemma execMethod_success_from_handler_witness :
  exists c,
    execMethod registry Background (Some noop_call) 0 = Ret c
    /\ res_Error (c_res c) = None
    /\ c_log c = [Lookup "noop"; Spawn "noop"; Finished "noop"]
    /\ c_pending c = [].
Proof.
  eexists. split; [vm_compute; reflexivity |]. split; [reflexivity |].
  match goal with
  | |- c_log ?c = _ /\ _ =>
      assert (Hc : execMethod registry Background (Some noop_call) 0 = Ret c)
        by (vm_compute; reflexivity);
      destruct (execMethod_success_from_handler registry Background noop_call 0 c
                  Hc eq_refl) as (_ & _ & _ & Hlog & Hpend)
  end.
  split; [exact Hlog | exact Hpend].
Defined.

Lemma execMethod_own_errors_witness :
  exists c e,
    execMethod registry Background (Some eager_call) 0 = Ret c
    /\ res_Error (c_res c) = Some e
    /\ (Finished (r_Method eager_call) ∉ c_log c)
    /\ Code e ∈ [errCodeInvalidRPCVersion; errCodeMethodNotFound; errCodeExecutionTimeout]
    /\ e = newError (Code e) (Data e)
    /\ Message e <> "".
Proof.
  eexists _, _. split; [vm_compute; reflexivity |]. split; [reflexivity |].
  assert (Hlog : Finished (r_Method eager_call)
                 ∉ [Lookup "eager"; Spawn "eager"; Expired "eager"]).
  { intros Hin. repeat (apply elem_of_cons in Hin as [Hin | Hin]; [discriminate |]).
    inversion Hin. }
  split; [exact Hlog |].
  match goal with
  | |- (Code ?e ∈ _) /\ _ =>
      apply (execMethod_own_errors registry Background eager_call 0
               {| c_res := {| res_Version := "2.0"; res_ID := Some "2";
                              res_Result := Val (JNum 1); res_Error := Some e |};
                  c_pending := []; c_end := 1 * Second;
                  c_log := [Lookup "eager"; Spawn "eager"; Expired "eager"] |} e);
        [vm_compute; reflexivity | reflexivity | exact Hlog]
  end.
Defined.

Lemma execMethod_returns_by_deadline_witness :
  exists c,
    execMethod registry (mkCtx (Some 500)) (Some eager_call) 0 = Ret c
    /\ 0 <= c_end c
    /\ c_end c <= Z.max 0 (0 + timeout registry)
    /\ c_end c <= Z.max 0 500.
Proof.
  eexists. split; [vm_compute; reflexivity |].
  match goal with
  | |- 0 <= c_end ?c /\ _ =>
      assert (Hc : execMethod registry (mkCtx (Some 500)) (Some eager_call) 0 = Ret c)
        by (vm_compute; reflexivity);
      destruct (execMethod_returns_by_deadline registry (mkCtx (Some 500)) eager_call 0 c
                  Hc) as (H1 & H2 & H3)
  end.
  split; [exact H1 |]. split; [exact H2 |]. exact (H3 500 eq_refl).
Defined.

Lemma dispatch_returns_by_deadlines_witness :
  exists resp t log,
    dispatch registry Background batch 0 [] [] = Ret (resp, t, log)
    /\ 0 <= t <= 0 + Z.of_nat (length batch) * Z.max 0 (timeout registry).
Proof.
  eexists _, _, _. split; [vm_compute; reflexivity |].
  match goal with
  | |- 0 <= ?t <= _ =>
      eapply (dispatch_returns_by_deadlines registry Background batch 0 [] [] _ t _)
  end.
  vm_compute. reflexivity.
Defined.

Lemma execMethod_handler_argument_witness :
  timeout registry = timeout small
  /\ methods registry !! r_Method noop_call = Some noop
  /\ methods small !! r_Method noop_call = Some noop
  /\ execMethod registry Background (Some noop_call) 0
     = execMethod small Background (Some noop_call) 0.
Proof.
  assert (Hm : methods registry !! r_Method noop_call = Some noop)
    by (vm_compute; reflexivity).
  assert (Hm' : methods small !! r_Method noop_call = Some noop)
    by (vm_compute; reflexivity).
  split; [reflexivity |]. split; [exact Hm |]. split; [exact Hm' |].
  exact (proj1 (execMethod_handler_argument registry small Background noop_call 0
                  noop noop eq_refl Hm Hm' eq_refl)).
Defined.

Lemma execMethod_expires_at_once_witness :
  exists c,
    timeout impatient <= 0
    /\ methods impatient !! r_Method eager_call = Some eager
    /\ execMethod impatient Background (Some eager_call) 0 = Ret c
    /\ res_Error (c_res c) = Some (newError errCodeExecutionTimeout Nil)
    /\ c_end c = 0.
Proof.
  assert (Ht : timeout impatient <= 0) by (vm_compute; discriminate).
  assert (Hm : methods impatient !! r_Method eager_call = Some eager)
    by (vm_compute; reflexivity).
  eexists. split; [exact Ht |]. split; [exact Hm |].
  split; [vm_compute; reflexivity |].
  match goal with
  | |- res_Error (c_res ?c) = _ /\ _ =>
      assert (Hc : execMethod impatient Background (Some eager_call) 0 = Ret c)
        by (vm_compute; reflexivity);
      assert (Hname : r_Method eager_call <> "") by discriminate;
      assert (Hrun : (timeline 0 (eager
                        {| r_Version := r_Version eager_call;
                           r_Method := r_Method eager_call;
                           r_ID := r_ID eager_call; r_Params := r_Params eager_call;
                           r_ctx := Some (WithTimeout Background 0 (timeout impatient)) |})).2
                     <> Some 0) by (vm_compute; discriminate);
      destruct (execMethod_expires_at_once impatient Background eager_call 0 eager c
                  (or_introl Ht) eq_refl Hname Hm Hrun Hc) as (He & Hend & _)
  end.
  split; [exact He | exact Hend].
Defined.

Lemma Handle_own_error_writes_nothing_witness :
  let e := newError ErrCodeInternal (str "r io.Reader can't be nil") in
  Handle registry None None (Some (mkWriter None)) 0 = Ret (failed e)
  /\ h_out (failed e) = [] /\ h_log (failed e) = []
  /\ Code e ∈ [ErrCodeInternal; errCodeParseError; errCodeInvalidRequest].
Proof.
  intros e.
  assert (Hh : Handle registry None None (Some (mkWriter None)) 0 = Ret (failed e))
    by reflexivity.
  split; [exact Hh |].
  destruct (Handle_own_error_writes_nothing registry None None (Some (mkWriter None)) 0
              (failed e) e Hh eq_refl) as (Hout & Hlog & Hcode & _).
  split; [exact Hout |]. split; [exact Hlog | exact Hcode].
Defined.

Lemma Handle_writes_at_most_one_document_witness :
  exists h,
    Handle registry None (Some (reader batch_input)) (Some (mkWriter None)) 0 = Ret h
    /\ (length (h_out h) <= 1)%nat
    /\ (is_Some (h_err h) -> h_out h = []).
Proof.
  eexists. split; [vm_compute; reflexivity |].
  match goal with
  | |- (length (h_out ?h) <= 1)%nat /\ _ =>
      assert (Hh : Handle registry None (Some (reader batch_input))
                     (Some (mkWriter None)) 0 = Ret h) by (vm_compute; reflexivity);
      destruct (Handle_writes_at_most_one_document registry None
                  (Some (reader batch_input)) (Some (mkWriter None)) 0 h Hh)
        as (H1 & H2 & _)
  end.
  split; [exact H1 | exact H2].
Defined.

Lemma rejected_unhandled :
  Forall (fun r => exists req, r = Some req /\ unhandled registry req) rejected.
Proof.
  repeat (apply Forall_cons; split; [eexists; split; [reflexivity |] |]);
    [left; discriminate | right; right; vm_compute; reflexivity
     | right; left; reflexivity | constructor].
Defined.

Lemma Handle_never_returns_call_errors_witness :
  parseMethodRequest (reader rejected_input) = inr rejected
  /\ rejected <> [] /\ Forall is_Some rejected
  /\ exists h,
       Handle registry None (Some (reader rejected_input))
              (Some (mkWriter (Some EOF))) 0 = Ret h
       /\ (forall e, h_err h <> Some (RPCError e))
       /\ (forall name, Spawn name ∉ h_log h)
       /\ (forall e, h_err h = Some (IOError e) -> Some EOF = Some e).
Proof.
  assert (Hparse : parseMethodRequest (reader rejected_input) = inr rejected)
    by (vm_compute; reflexivity).
  assert (Hne : rejected <> []) by discriminate.
  assert (Hsome : Forall is_Some rejected) by (repeat constructor; eexists; reflexivity).
  repeat (split; [assumption |]).
  destruct (Handle_never_returns_call_errors registry None (reader rejected_input)
              (mkWriter (Some EOF)) 0 rejected Hparse Hne Hsome)
    as (all & h & _ & Hh & _ & _ & H1 & Hun).
  destruct (Hun rejected_unhandled) as (H2 & _ & H3).
  exists h. split; [exact Hh |]. split; [exact H1 |]. split; [exact H2 | exact H3].
Defined.

Lemma Handle_answers_in_order_witness :
  parseMethodRequest (reader identified_input) = inr identified
  /\ identified <> []
  /\ Forall (fun r => exists req, r = Some req /\ is_Some (r_ID req)) identified
  /\ exists h,
       Handle registry None (Some (reader identified_input)) (Some (mkWriter None)) 0 = Ret h
       /\ member "id" <$> responses_of (h_out h)
          = [Some (JRaw "1"); Some (JRaw (q "'b'")); Some (JRaw "3")]
       /\ member "jsonrpc" <$> responses_of (h_out h)
          = [Some (JStr "2.0"); Some (JStr "1.0"); Some (JStr "2.0")].
Proof.
  assert (Hparse : parseMethodRequest (reader identified_input) = inr identified)
    by (vm_compute; reflexivity).
  assert (Hne : identified <> []) by discriminate.
  assert (Hids : Forall (fun r => exists req, r = Some req /\ is_Some (r_ID req)) identified).
  { repeat constructor; eexists; (split; [reflexivity |]); eexists; reflexivity. }
  repeat (split; [assumption |]).
  destruct (Handle_answers_in_order registry None (reader identified_input)
              (mkWriter None) 0 identified Hparse Hne Hids eq_refl) as (h & Hh & Hid & Hv).
  exists h. split; [exact Hh |]. split; [exact Hid | exact Hv].
Defined.

Lemma Handle_no_more_responses_than_requests_witness :
  exists h,
    parseMethodRequest (reader batch_input) = inr batch
    /\ Handle registry None (Some (reader batch_input)) (Some (mkWriter None)) 0 = Ret h
    /\ (length (responses_of (h_out h)) <= length batch)%nat.
Proof.
  assert (Hparse : parseMethodRequest (reader batch_input) = inr batch)
    by (vm_compute; reflexivity).
  eexists. split; [exact Hparse |]. split; [vm_compute; reflexivity |].
  match goal with
  | |- (length (responses_of (h_out ?h)) <= _)%nat =>
      apply (Handle_no_more_responses_than_requests registry None (reader batch_input)
               (mkWriter None) 0 batch h Hparse)
  end.
  vm_compute. reflexivity.
Defined.

Lemma Handle_silent_batch_witness :
  parseMethodRequest (reader silent_input) = inr silent
  /\ silent <> []
  /\ run_calls registry Background silent 0 = Ret silent_calls
  /\ Forall (fun p => r_ID p.1 = None /\ res_Error (c_res p.2) = None) silent_calls
  /\ Handle registry None (Some (reader silent_input)) (Some (mkWriter (Some EOF))) 0 =
       Ret {| h_out := []; h_err := None; h_log := logs silent_calls |}.
Proof.
  assert (Hparse : parseMethodRequest (reader silent_input) = inr silent)
    by (vm_compute; reflexivity).
  assert (Hne : silent <> []) by discriminate.
  assert (Hall : run_calls registry Background silent 0 = Ret silent_calls)
    by (vm_compute; reflexivity).
  assert (Hsil : Forall (fun p => r_ID p.1 = None /\ res_Error (c_res p.2) = None)
                   silent_calls) by (repeat constructor).
  repeat (split; [assumption |]).
  exact (Handle_silent_batch registry None (reader silent_input) (mkWriter (Some EOF)) 0
           silent silent_calls Hparse Hne Hall Hsil).
Defined.

Lemma builder_order_irrelevant_witness :
  (mb1 ← Add "add" (Some Tests.addMethod) NewManagerBuilder; Add "noop" (Some noop) mb1)
  = (mb2 ← Add "noop" (Some noop) NewManagerBuilder; Add "add" (Some Tests.addMethod) mb2).
Proof.
  apply (proj1 (proj2 builder_order_irrelevant)). discriminate.
Defined.

Lemma Build_dispatches_registered_witness :
  exists mb' c,
    Add "add" (Some Tests.addMethod) NewManagerBuilder = Ret mb'
    /\ execMethod (Build mb') Background (Some call_request) 0 = Ret c
    /\ Spawn "add" ∈ c_log c.
Proof.
  assert (Hname : r_Method call_request <> "") by discriminate.
  destruct (Build_dispatches_registered "add" Tests.addMethod NewManagerBuilder
              (mkBuilder (10 * Second) (<["add" := Tests.addMethod]> ∅))
              Background call_request 0 eq_refl eq_refl Hname)
    as (_ & _ & Hreg & _).
  destruct (Hreg eq_refl) as (c & Hc & Hin).
  eexists _, c. split; [reflexivity |]. split; [exact Hc | exact Hin].
Defined.

Lemma HTTPHandleFunc_answers_witness :
  exists s,
    HTTPHandleFunc registry fresh_writer (post "text/plain" 40 call_input) 0 = Ret s
    /\ rw_steps (s_writer s) = [WriteHeader 415]
    /\ s_log s = [].
Proof.
  eexists. split; [vm_compute; reflexivity |].
  match goal with
  | |- rw_steps (s_writer ?s) = _ /\ _ =>
      assert (Hs : HTTPHandleFunc registry fresh_writer
                     (post "text/plain" 40 call_input) 0 = Ret s)
        by (vm_compute; reflexivity);
      destruct (HTTPHandleFunc_answers registry fresh_writer
                  (post "text/plain" 40 call_input) 0 s Hs) as (steps & Hsteps & Hkind)
  end.
  destruct Hkind as [(_ & -> & Hlog & _) | [(Hct & _) | (Hct & _)]];
    [split; [exact Hsteps | exact Hlog] | |]; vm_compute in Hct; discriminate.
Defined.

Lemma HTTPHandleFunc_rejections_are_documents_witness :
  let r := post "application/json; charset=utf-8" 106 rejected_input in
  String.prefix contentTypeValue (Header_Get (hr_Header r) contentTypeKey) = true
  /\ hr_ContentLength r <> 0
  /\ parseMethodRequest (hr_Body r) = inr rejected
  /\ exists s doc,
       HTTPHandleFunc registry fresh_writer r 0 = Ret s
       /\ rw_steps (s_writer s) = rw_steps fresh_writer ++ [WriteDoc doc]
       /\ length (responses_of [doc]) = 3%nat
       /\ (forall d, d ∈ responses_of [doc] -> is_Some (member "error" d))
       /\ (forall name, Spawn name ∉ s_log s).
Proof.
  intros r.
  assert (Hct : String.prefix contentTypeValue (Header_Get (hr_Header r) contentTypeKey)
                = true) by (vm_compute; reflexivity).
  assert (Hcl : hr_ContentLength r <> 0) by discriminate.
  assert (Hparse : parseMethodRequest (hr_Body r) = inr rejected)
    by (vm_compute; reflexivity).
  repeat (split; [assumption |]).
  apply (HTTPHandleFunc_rejections_are_documents registry fresh_writer r 0
           rejected Hct Hcl Hparse);
    [discriminate | exact rejected_unhandled | reflexivity].
Defined.

Lemma HTTPHandleFunc_undecodable_body_witness :
  let r := post "application/json" 2 "[]" in
  let e := newError errCodeInvalidRequest (str "no methods specified") in
  parseMethodRequest (hr_Body r) = inr []
  /\ exists s,
       HTTPHandleFunc registry fresh_writer r 0 = Ret s
       /\ rw_steps (s_writer s) = [WriteHeader 500; WriteError (RPCError e)]
       /\ s_log s = [].
Proof.
  intros r e.
  assert (Hparse : parseMethodRequest (hr_Body r) = inr []) by (vm_compute; reflexivity).
  split; [exact Hparse |].
  apply (HTTPHandleFunc_undecodable_body registry fresh_writer r 0 e);
    [vm_compute; reflexivity | discriminate | right; split; [exact Hparse | reflexivity]].
Defined.

Lemma ParseParams_without_decoding_witness :
  exists e text,
    ParseParams (um := Tests.unmarshal_params) (Some noop_call) (PointerTo (Tests.mkParams 0 0))
      = Ret (Some noop_call, PointerTo (Tests.mkParams 0 0), Some e)
    /\ e = newError errCodeInvalidParams (str text).
Proof.
  destruct (proj1 (ParseParams_without_decoding Tests.unmarshal_params
                     Tests.unmarshal_params Go_json.unmarshal_request
                     Go_json.unmarshal_request Go_json.syntax Go_json.syntax
                     (Some noop_call) (PointerTo (Tests.mkParams 0 0)))
              (or_intror (ex_intro _ noop_call (conj eq_refl eq_refl))))
    as (e & text & H1 & _ & He).
  exists e, text. split; [exact H1 | exact He].
Defined.

End MoreWitnesses.
